(** * a10_client/axapi_http.py: HttpClient and Session

    A shallow embedding of [HttpClient.request] (retry loop, response
    normalisation) and of [Session] (lazy authentication, close) together with
    the properties the specification states about them.

    The module is Python 2 code ([xrange], [iteritems], [json.dumps] with an
    [encoding] argument): a name bound by [except ... as e] stays bound after
    the handler, which matters for the [raise e] that follows the retry loop. *)

From Stdlib Require Import ZArith Lia Ascii String.
From stdpp Require Import gmap strings list fin_maps pretty.

Set Warnings "-register-all,-clear-no-such-hyp".
Local Open Scope string_scope.
Local Open Scope Z_scope.

(** ** Python values *)

(** The values [requests] decodes from a JSON body, also used for the
    parameter mappings that are serialised into one.  [JNull] is Python's
    [None], [JObj] a [dict] with string keys.  Numbers are kept as their
    literal: this module never computes with them. *)
Inductive json :=
| JNull
| JBool (b : bool)
| JNum (lit : string)
| JStr (s : string)
| JList (l : list json)
| JObj (d : gmap string json).

Abbreviation dict := (gmap string json).
Abbreviation headers_t := (gmap string string).

(** Python's [None], as [request] returns it for a 204 status. *)
Definition py_None : json := JNull.
(** The literal [{}]. *)
Definition empty_dict : json := JObj ∅.

(** ** Exceptions *)

(** The classes the handler of the retry loop tells apart: [socket.error] (and
    its subclasses), [requests.exceptions.ConnectionError] (and its
    subclasses), and every other exception class. *)
Inductive exc_class :=
| SocketError
| RequestsConnectionError
| OtherException (name : string).

(** Exceptions are the instances of [Exception]; the interpreter's
    [KeyboardInterrupt] and [SystemExit], which [except Exception] would not
    catch, are not modelled.  [TypeError] carries a short tag, not the message
    text of CPython: the statements below are about the class. *)
Inductive exc :=
| EnvError (cls : exc_class) (eno : option Z) (text : string)
    (* raised by the transport: class, [e.errno], [str(e)] *)
| ValueError (msg : string)
| JSONDecodeError                 (* the ValueError of [z.json()] *)
| TypeError (msg : string)
| KeyError (key : string)
| UnboundLocalError (var : string)
| ApiError (method api_url : string) (body : json)
| AuthSchemaError (method api_url : string) (body : json)
                  (headers : option headers_t).

Inductive result (A : Type) :=
| Ok (a : A)
| Raise (e : exc).
Arguments Ok {A} a.
Arguments Raise {A} e.

(** ** Strings *)

Fixpoint str_prefix (p s : string) : bool :=
  match p, s with
  | EmptyString, _ => true
  | String a p', String b s' => Ascii.eqb a b && str_prefix p' s'
  | String _ _, EmptyString => false
  end.

(** [p in s] on Python strings: [p] occurs in [s] as a substring. *)
Fixpoint str_contains (p s : string) : bool :=
  str_prefix p s ||
  match s with
  | EmptyString => false
  | String _ s' => str_contains p s'
  end.

(** [k.replace(a, b)] for single characters. *)
Fixpoint str_replace (a b : Ascii.ascii) (s : string) : string :=
  match s with
  | EmptyString => EmptyString
  | String x s' => String (if Ascii.eqb x a then b else x) (str_replace a b s')
  end.

(** ** Dynamic operations on decoded values *)

(** [k in v]: key membership on a dict, element membership on a list,
    substring on a string, [TypeError] on the rest. *)
Definition py_in (k : string) (v : json) : result bool :=
  match v with
  | JObj d => Ok (bool_decide (is_Some (d !! k)))
  | JList l => Ok (existsb (fun x => match x with
                                     | JStr s => String.eqb s k
                                     | _ => false
                                     end) l)
  | JStr s => Ok (str_contains k s)
  | JNull | JBool _ | JNum _ => Raise (TypeError "argument is not iterable")
  end.

(** [v[k]] with a string subscript. *)
Definition py_getitem (v : json) (k : string) : result json :=
  match v with
  | JObj d => match d !! k with
              | Some x => Ok x
              | None => Raise (KeyError k)
              end
  | _ => Raise (TypeError "indices must be integers")
  end.

(** [v == s] for a string literal [s]. *)
Definition py_eq_str (v : json) (s : string) : bool :=
  match v with
  | JStr t => String.eqb t s
  | _ => false
  end.

(** Truthiness of a mapping: [if params:], [if headers:]. *)
Definition truthy {A} (m : gmap string A) : bool :=
  negb (Nat.eqb (size m) 0).

(** ** The world: transport, log, heap of parameter mappings, session *)

Record response := {
  status_code : Z;
  json_body : option json   (* [z.json()]: the decoded body, or ValueError *)
}.

(** What one call of [requests.request] does. *)
Inductive outcome :=
| Returns (z : response)
| Raises (e : exc).

Inductive req_body :=
| Data (payload : option string)
| Files (file_name : string) (file_content : option string)
        (payload : option string).

Inductive log_level := DEBUG | ERROR.

(** The log calls of the module, by message, with their arguments.  The
    arguments are recorded as they are: [logutils.clean] and the [json.dumps]
    that format them for the logger return new values and change nothing. *)
Inductive log_msg :=
| LogFullUrl (url : string)                      (* line 67 *)
| LogMethodUrl (method api_url : string)         (* line 68 *)
| LogParams (params : dict)                      (* line 69 *)
| LogParamsAll (params_copy : dict)              (* line 89 *)
| LogHeaders (hdrs : headers_t)                  (* line 95 *)
| LogRetried (url : string) (i : nat)            (* line 128 *)
| LogFailing (last_e : exc) (i : nat) (strs : list string)  (* line 131 *)
| LogData (r : json).                            (* line 147 *)

Inductive event :=
| EvLog (lvl : log_level) (msg : log_msg)
| EvRequest (method url : string) (body : req_body) (hdrs : headers_t)
    (* requests.request(method, url, verify=False, ...) *)
| EvSleep (ms : Z).

Abbreviation loc := positive.

(** [net] gives the outcome of the n-th call of [requests.request], [calls]
    counts the calls made so far, [trace] is the chronological list of
    observable events, [heap] holds the mutable parameter mappings by
    reference, [session_id] is the attribute of the [Session] object. *)
Record state := {
  net : nat -> outcome;
  calls : nat;
  trace : list event;
  heap : gmap loc dict;
  session_id : option string
}.

Definition set_trace (t : list event) (st : state) : state :=
  {| net := net st; calls := calls st; trace := t; heap := heap st;
     session_id := session_id st |}.
Definition set_calls (n : nat) (st : state) : state :=
  {| net := net st; calls := n; trace := trace st; heap := heap st;
     session_id := session_id st |}.
Definition set_heap (h : gmap loc dict) (st : state) : state :=
  {| net := net st; calls := calls st; trace := trace st; heap := h;
     session_id := session_id st |}.
Definition set_session_id (s : option string) (st : state) : state :=
  {| net := net st; calls := calls st; trace := trace st; heap := heap st;
     session_id := s |}.

Definition emit (ev : event) (st : state) : state :=
  set_trace (trace st ++ [ev]) st.

(** ** State and exception monad *)

Definition M (A : Type) : Type := state -> state * result A.

Definition ret {A} (a : A) : M A := fun st => (st, Ok a).
Definition raise {A} (e : exc) : M A := fun st => (st, Raise e).
Definition lift {A} (r : result A) : M A := fun st => (st, r).
Definition bind {A B} (m : M A) (k : A -> M B) : M B :=
  fun st =>
    match m st with
    | (st1, Ok a) => k a st1
    | (st1, Raise e) => (st1, Raise e)
    end.

Declare Scope py_scope.
Delimit Scope py_scope with py.
Notation "x <- c ;; k" := (bind c (fun x => k))
  (at level 100, c at next level, right associativity) : py_scope.
Notation "c ;;; k" := (bind c (fun _ => k))
  (at level 100, right associativity) : py_scope.
Local Open Scope py_scope.

(** [try: m finally: fin] *)
Definition try_finally {A} (m : M A) (fin : state -> state) : M A :=
  fun st => let (st1, r) := m st in (fin st1, r).

(** [try: m except Exception: pass] *)
Definition try_except_pass (m : M unit) : M unit :=
  fun st => let (st1, _) := m st in (st1, Ok tt).

Definition log (lvl : log_level) (msg : log_msg) : M unit :=
  fun st => (emit (EvLog lvl msg) st, Ok tt).

(** [time.sleep(0.1)] *)
Definition sleep : M unit :=
  fun st => (emit (EvSleep 100) st, Ok tt).

(** One call of the transport library. *)
Definition requests_request (method url : string) (body : req_body)
    (hdrs : headers_t) : M response :=
  fun st =>
    let st1 := set_calls (S (calls st)) (emit (EvRequest method url body hdrs) st) in
    match net st (calls st) with
    | Returns z => (st1, Ok z)
    | Raises e => (st1, Raise e)
    end.

(** The default [params={}] objects of [request], [get], [post], [put] and
    [delete]: one mapping each, created when the class body runs and shared by
    every call that leaves [params] out. *)
Definition request_default_params : loc := 1%positive.
Definition get_default_params : loc := 2%positive.
Definition post_default_params : loc := 3%positive.
Definition put_default_params : loc := 4%positive.
Definition delete_default_params : loc := 5%positive.

Definition reserved : gset loc :=
  {[ request_default_params; get_default_params; post_default_params;
     put_default_params; delete_default_params ]}.

(** A new mapping object: a reference no live object has. *)
Definition alloc (d : dict) : M loc :=
  fun st =>
    let p := fresh (reserved ∪ dom (heap st)) in
    (set_heap (<[p := d]> (heap st)) st, Ok p).

(** Reading through a reference.  A default object that was never written is
    the [{}] it was created as. *)
Definition deref (p : loc) : M dict :=
  fun st => (st, Ok (heap st !!! p)).

(** ** What the module imports *)

(** The parts of the Python library and of the surrounding package that this
    module calls and that are not part of it: [acos_client.VERSION], the table
    [errno.errorcode], [json.dumps], [acos_client.v21.axapi_http.merge_dicts]
    (which builds a new mapping from its two arguments), [str()] on a decoded
    value, and [client.partition.active()], an arbitrary action on the world
    that returns or raises. *)
Class Externals := {
  acos_version : string;
  errorcode : gmap Z string;
  json_dumps : dict -> string;
  merge_dicts : dict -> dict -> dict;
  py_str : json -> result string;
  partition_active : M unit
}.

(** Modelled from the spec: [responses.raise_axapi_ex]; the source of the
    module [responses], which axapi_http.py imports, is missing.  The
    specification says that a decoded body whose nested status field equals
    "fail" raises a structured API exception carrying the method, the path and
    the body. *)
Definition raise_axapi_ex (r : json) (method api_url : string) : M unit :=
  raise (ApiError method api_url r).

(** Modelled from the spec: [responses.raise_axapi_auth_error], of the same
    module.  The specification says that a body with an authorization-schema
    marker raises a structured authentication-error exception. *)
Definition raise_axapi_auth_error (r : json) (method api_url : string)
    (headers : option headers_t) : M unit :=
  raise (AuthSchemaError method api_url r headers).

(** ** HttpClient *)

Record HttpClient := {
  url_base : string;
  retry_errnos : list Z;
  retry_err_strings : list string
}.

(** Optional keyword arguments of [request], as [get], [post], [put] and
    [delete] pass them on in [**kwargs]. *)
Record kwargs := {
  file_name : option string;
  file_content : option string;
  axapi_args : option dict
}.

Definition no_kwargs : kwargs :=
  {| file_name := None; file_content := None; axapi_args := None |}.

(** The variables of [request] that the retry loop assigns. *)
Record locals := {
  v_i : option nat;
  v_last_e : option exc;
  v_e : option exc;
  v_z : option response
}.

Definition set_i (i : nat) (lc : locals) : locals :=
  {| v_i := Some i; v_last_e := v_last_e lc; v_e := v_e lc; v_z := v_z lc |}.
Definition set_last_e (le : option exc) (lc : locals) : locals :=
  {| v_i := v_i lc; v_last_e := le; v_e := v_e lc; v_z := v_z lc |}.
Definition set_e (e : exc) (lc : locals) : locals :=
  {| v_i := v_i lc; v_last_e := v_last_e lc; v_e := Some e; v_z := v_z lc |}.
Definition set_z (z : response) (lc : locals) : locals :=
  {| v_i := v_i lc; v_last_e := v_last_e lc; v_e := v_e lc; v_z := Some z |}.

(** [isinstance(e, (socket.error, requests.exceptions.ConnectionError))] *)
Definition caught (cls : exc_class) : bool :=
  match cls with
  | SocketError | RequestsConnectionError => true
  | OtherException _ => false
  end.

(** The condition of line 121: [e.errno in self.retry_errnos or
    any(s in str(e) for s in self.retry_err_strings)]. *)
Definition retry_condition (c : HttpClient) (eno : option Z) (text : string)
    : bool :=
  match eno with
  | Some n => bool_decide (n ∈ retry_errnos c)
  | None => false
  end
  || existsb (fun s => str_contains s text) (retry_err_strings c).

(** The [for i in xrange(...)] loop of [request], with [n] iterations left and
    [i] the next index; [send] is the call of [requests.request] in its body.
    [Ok] is the normal exit of the loop, by [break] or by exhaustion. *)
Fixpoint retry_loop (c : HttpClient) (send : M response) (n i : nat)
    (lc : locals) (st : state) : state * result locals :=
  match n with
  | O => (st, Ok lc)
  | S n' =>
      let lc := set_last_e None (set_i i lc) in
      match send st with
      | (st1, Ok z) => (st1, Ok (set_z z lc))
      | (st1, Raise (EnvError cls eno text as ex)) =>
          if caught cls then
            let lc := set_e ex lc in
            if retry_condition c eno text then
              let (st2, _) := sleep st1 in
              retry_loop c send n' (S i) (set_last_e (Some ex) lc) st2
            else (st1, Raise ex)
          else (st1, Raise ex)
      | (st1, Raise ex) => (st1, Raise ex)
      end
  end.

(** The number of iterations of the loop: [xrange(0, 1500)]. *)
Definition retry_cap : nat := 1500.

Section Client.
Context `{Ext : Externals}.

(** [HttpClient.__init__].  The [timeout] argument is not used.  The test
    [protocol is 'http'] compares identities; it is modelled as equality, which
    is what it gives for the interned literal callers pass.  A string equal to
    'http' that is another object gets port 443 in the code and 80 here; no
    statement below reads the port of [url_base]. *)
Definition HttpClient_init (host : string) (port : option Z)
    (protocol : string) (retry_errno_list : option (list Z)) : HttpClient :=
  let port := match port with
              | Some p => p
              | None => if String.eqb protocol "http" then 80 else 443
              end in
  let errnos := ([] ++ match retry_errno_list with
                       | Some l => l
                       | None => []
                       end)%list in
  {| url_base := protocol +:+ "://" +:+ host +:+ ":" +:+ pretty port;
     retry_errnos := errnos;
     retry_err_strings :=
       (["BadStatusLine"] ++
        map (fun n => "[Errno " +:+ pretty n +:+ "]") errnos ++
        omap (fun n => errorcode !! n) errnos)%list |}.

(** The class attribute [HEADERS]. *)
Definition HEADERS : headers_t :=
  {[ "Content-type" := "application/json";
     "User-Agent" := "ACOS-Client-AGENT-" +:+ acos_version ]}.

(** [dict([(k.replace('_', '-'), v) for k, v in axapi_args.iteritems()])].
    When two keys become the same key, Python keeps the pair that comes last
    in the iteration order of [axapi_args], which the language leaves open;
    this definition keeps one of the two, not always the same one.  The
    statements below that read the result either hold for both choices or
    assume [no_key_collision]. *)
Definition format_axapi_args (a : dict) : dict :=
  list_to_map (map (fun kv => (str_replace "_"%char "-"%char (fst kv), snd kv))
                   (map_to_list a)).

(** Lines 135 to 157: what [request] makes of the response [z]. *)
Definition handle_response (method api_url : string)
    (headers : option headers_t) (z : response) : M json :=
  if Z.eqb (status_code z) 204 then ret py_None
  else
    match json_body z with
    | None =>
        (* except ValueError as e *)
        if Z.eqb (status_code z) 200 then ret empty_dict
        else raise JSONDecodeError
    | Some r =>
        log DEBUG (LogData r) ;;;
        has_response <- lift (py_in "response" r) ;;
        has_status <- (if has_response : bool
                       then inner <- lift (py_getitem r "response") ;;
                            lift (py_in "status" inner)
                       else ret false) ;;
        (if has_status : bool
         then inner <- lift (py_getitem r "response") ;;
              status <- lift (py_getitem inner "status") ;;
              if py_eq_str status "fail"
              then raise_axapi_ex r method api_url
              else ret tt
         else ret tt) ;;;
        has_auth <- lift (py_in "authorizationschema" r) ;;
        (if has_auth : bool
         then raise_axapi_auth_error r method api_url headers
         else ret tt) ;;;
        ret r
    end.

(** Lines 67 to 104 of [request]: logging, the merge of [axapi_args], the
    check of the file arguments, the headers and the payload.  [params] is a
    reference to the caller's mapping.  The result is the payload and the
    headers to send. *)
Definition request_prepare (c : HttpClient) (method api_url : string)
    (params : loc) (headers : option headers_t) (kw : kwargs)
    : M (option string * headers_t) :=
  log DEBUG (LogFullUrl (url_base c +:+ api_url)) ;;;
  log DEBUG (LogMethodUrl method api_url) ;;;
  d <- deref params ;;
  log DEBUG (LogParams d) ;;;
  params <- match axapi_args kw with
            | Some a =>
                d <- deref params ;;
                alloc (merge_dicts d (format_axapi_args a))
            | None => ret params
            end ;;
  match file_name kw, file_content kw with
  | None, Some _ | Some _, None =>
      raise (ValueError
               "file_name and file_content must both be populated if one is")
  | _, _ =>
    let hdrs := HEADERS in
    let hdrs := match headers with
                | Some h => if truthy h then h ∪ hdrs else hdrs
                | None => hdrs
                end in
    d <- deref params ;;
    payload <- (if truthy d
                then params_copy <- alloc d ;;
                     dc <- deref params_copy ;;
                     log DEBUG (LogParamsAll dc) ;;;
                     ret (Some (json_dumps dc))
                else ret None) ;;
    log DEBUG (LogHeaders hdrs) ;;;
    let hdrs := match file_name kw with
                | Some _ => delete "Content-Type" (delete "Content-type" hdrs)
                | None => hdrs
                end in
    ret (payload, hdrs)
  end.

(** The call of [requests.request] in the body of the loop: with [files=]
    when a file name is given, with [data=payload] otherwise. *)
Definition request_send (c : HttpClient) (method api_url : string)
    (kw : kwargs) (payload : option string) (hdrs : headers_t) : M response :=
  match file_name kw with
  | Some fn =>
      requests_request method (url_base c +:+ api_url)
        (Files fn (file_content kw) payload) hdrs
  | None =>
      requests_request method (url_base c +:+ api_url) (Data payload) hdrs
  end.

(** Lines 128 to 157 of [request]: what follows the loop. *)
Definition request_finish (c : HttpClient) (method api_url : string)
    (headers : option headers_t) (lc : locals) : M json :=
  i <- match v_i lc with
       | Some i => ret i
       | None => raise (UnboundLocalError "i")
       end ;;
  log DEBUG (LogRetried (url_base c +:+ api_url) i) ;;;
  match v_last_e lc with
  | Some last_e =>
      log ERROR (LogFailing last_e i (retry_err_strings c)) ;;;
      match v_e lc with
      | Some e => raise e
      | None => raise (UnboundLocalError "e")
      end
  | None =>
      match v_z lc with
      | Some z => handle_response method api_url headers z
      | None => raise (UnboundLocalError "z")
      end
  end.

(** The locals before the loop: [last_e = None] (line 106), the others not
    yet bound. *)
Definition no_locals : locals :=
  {| v_i := None; v_last_e := None; v_e := None; v_z := None |}.

(** [HttpClient.request]; [params] is [None] when the argument is left out,
    which selects the default object. *)
Definition request (c : HttpClient) (method api_url : string)
    (params : option loc) (headers : option headers_t) (kw : kwargs)
    : M json :=
  ph <- request_prepare c method api_url
          (default request_default_params params) headers kw ;;
  lc <- retry_loop c (request_send c method api_url kw (fst ph) (snd ph))
          retry_cap 0 no_locals ;;
  request_finish c method api_url headers lc.

Definition get (c : HttpClient) (api_url : string) (params : option loc)
    (headers : option headers_t) (kw : kwargs) : M json :=
  request c "GET" api_url (Some (default get_default_params params)) headers kw.

Definition post (c : HttpClient) (api_url : string) (params : option loc)
    (headers : option headers_t) (kw : kwargs) : M json :=
  request c "POST" api_url (Some (default post_default_params params)) headers kw.

Definition put (c : HttpClient) (api_url : string) (params : option loc)
    (headers : option headers_t) (kw : kwargs) : M json :=
  request c "PUT" api_url (Some (default put_default_params params)) headers kw.

Definition delete_ (c : HttpClient) (api_url : string) (params : option loc)
    (headers : option headers_t) (kw : kwargs) : M json :=
  request c "DELETE" api_url (Some (default delete_default_params params))
    headers kw.

End Client.

(** ** Session *)

(** The immutable attributes of a [Session]; its [session_id] lives in the
    state. *)
Record Session := {
  http : HttpClient;
  username : string;
  password : string
}.

Definition get_session_id : M (option string) :=
  fun st => (st, Ok (session_id st)).

Definition put_session_id (s : option string) : M unit :=
  fun st => (set_session_id s st, Ok tt).

(** The payload of the auth request:
    [{'credentials': {"username": username, "password": password}}]. *)
Definition credentials (username password : string) : dict :=
  {[ "credentials" := JObj {[ "username" := JStr username;
                              "password" := JStr password ]} ]}.

Section SessionModel.
Context `{Ext : Externals}.

(** [Session.close] *)
Definition Session_close (s : Session) : M json :=
  try_except_pass partition_active ;;;
  sid <- get_session_id ;;
  match sid with
  | None => ret py_None
  | Some tok =>
      try_finally
        (let h : headers_t := {[ "Authorization" := "A10 " +:+ tok ]} in
         post (http s) "/axapi/v3/logoff" None (Some h) no_kwargs)
        (set_session_id None)
  end.

(** [Session.authenticate] *)
Definition Session_authenticate (s : Session) (username password : string)
    : M json :=
  let url := "/axapi/v3/auth" in
  payload <- alloc (credentials username password) ;;
  sid <- get_session_id ;;
  match sid with
  | Some _ => Session_close s ;;; ret tt
  | None => ret tt
  end ;;;
  r <- post (http s) url (Some payload) None no_kwargs ;;
  has_auth <- lift (py_in "authresponse" r) ;;
  (if has_auth : bool
   then a <- lift (py_getitem r "authresponse") ;;
        sig <- lift (py_getitem a "signature") ;;
        tok <- lift (py_str sig) ;;
        put_session_id (Some tok)
   else put_session_id None) ;;;
  ret r.

(** The property [Session.id] *)
Definition Session_id (s : Session) : M (option string) :=
  sid <- get_session_id ;;
  match sid with
  | None => Session_authenticate s (username s) (password s) ;;; ret tt
  | Some _ => ret tt
  end ;;;
  get_session_id.

End SessionModel.

(** ** Observations on the trace *)

(** The calls of [requests.request] recorded in a trace. *)
Definition is_attempt (ev : event) : bool :=
  match ev with
  | EvRequest _ _ _ _ => true
  | _ => false
  end.

Definition is_sleep (ev : event) : bool :=
  match ev with
  | EvSleep _ => true
  | _ => false
  end.

(** The entry of a call [request(method, api_url, ...)]: the log line 68. *)
Definition is_call (method api_url : string) (ev : event) : bool :=
  match ev with
  | EvLog DEBUG (LogMethodUrl m u) => String.eqb m method && String.eqb u api_url
  | _ => false
  end.

Definition count (p : event -> bool) (t : list event) : nat :=
  length (List.filter p t).

(** The attempts, the sleeps and the authenticate calls a state has seen. *)
Definition attempts (st : state) : nat := count is_attempt (trace st).
Definition sleeps (st : state) : nat := count is_sleep (trace st).
Definition auth_calls (st : state) : nat :=
  count (is_call "POST" "/axapi/v3/auth") (trace st).

(** ** A concrete environment for examples *)

Module Demo.

Definition ext : Externals := {|
  acos_version := "1.4.6";
  errorcode := {[ 32 := "EPIPE"; 104 := "ECONNRESET"; 110 := "ETIMEDOUT";
                  111 := "ECONNREFUSED" ]};
  json_dumps := fun d => String.concat "," (map fst (map_to_list d));
  merge_dicts := fun d1 d2 => d2 ∪ d1;
  py_str := fun v => match v with
                     | JStr s => Ok s
                     | _ => Ok "<repr>"
                     end;
  partition_active := ret tt
|}.

(** As [ext], with a partition switch that fails. *)
Definition ext_partition_fails : Externals := {|
  acos_version := "1.4.6";
  errorcode := @errorcode ext;
  json_dumps := @json_dumps ext;
  merge_dicts := @merge_dicts ext;
  py_str := @py_str ext;
  partition_active := raise (EnvError (OtherException "ACOSException") None "no such partition")
|}.

Definition client : HttpClient :=
  @HttpClient_init ext "10.0.0.1" None "https" (Some [104]).

Definition client_no_errnos : HttpClient :=
  @HttpClient_init ext "10.0.0.1" None "https" None.

Definition session : Session :=
  {| http := client; username := "admin"; password := "a10" |}.

Definition reset : exc :=
  EnvError SocketError (Some 104) "[Errno 104] Connection reset by peer".
Definition bad_status : exc :=
  EnvError RequestsConnectionError None
    "('Connection aborted.', BadStatusLine(''))".
Definition refused : exc :=
  EnvError RequestsConnectionError (Some 111) "[Errno 111] Connection refused".
Definition too_many_redirects : exc :=
  EnvError (OtherException "TooManyRedirects") None "Exceeded 30 redirects.".

(** A world whose transport answers by [f], nothing logged yet. *)
Definition world (f : nat -> outcome) (sid : option string) : state :=
  {| net := f; calls := 0; trace := []; heap := ∅; session_id := sid |}.

Definition ok_json (r : json) : outcome :=
  Returns {| status_code := 200; json_body := Some r |}.

Definition auth_ok : json :=
  JObj {[ "authresponse" := JObj {[ "signature" := JStr "tok1" ]} ]}.

Definition api_fail : json :=
  JObj {[ "response" := JObj {[ "status" := JStr "fail";
                                "err" := JObj {[ "msg" := JStr "x" ]} ]} ]}.

(** Two connection resets, then what [o] says. *)
Definition after_two_resets (o : outcome) (n : nat) : outcome :=
  if Nat.ltb n 2 then Raises reset else o.

(** A file upload that names the file and gives no content. *)
Definition upload_without_content : kwargs :=
  {| file_name := Some "startup.cfg"; file_content := None;
     axapi_args := None |}.

Definition vs_params : dict := {[ "name" := JStr "vs1" ]}.

(** Worlds and values for the further properties. *)
Definition st_ok : state := world (fun _ => ok_json auth_ok) None.

Definition st_params : state :=
  set_heap {[ 10%positive := vs_params ]} st_ok.

Definition upload : kwargs :=
  {| file_name := Some "startup.cfg"; file_content := Some "hostname a";
     axapi_args := None |}.

Definition status_ok : json :=
  JObj {[ "response" := JObj {[ "status" := JStr "OK" ]} ]}.

Definition schema_body : json :=
  JObj {[ "authorizationschema" := JObj {[ "code" := JNum "401" ]} ]}.

(** One failure with the error [e], then an answer. *)
Definition fails_once (e : exc) (n : nat) : outcome :=
  if Nat.eqb n 0 then Raises e else ok_json auth_ok.

Definition econnreset_text : exc :=
  EnvError SocketError None "error: ECONNRESET".

End Demo.

(** ** Retryable errors, as the specification words them *)

(** A socket-level or connection error whose errno is in the configured retry
    set or whose string form contains one of the configured retry markers. *)
Definition Retryable (c : HttpClient) (e : exc) : Prop :=
  ∃ cls eno text,
    e = EnvError cls eno text ∧
    (cls = SocketError ∨ cls = RequestsConnectionError) ∧
    ((∃ n, eno = Some n ∧ n ∈ retry_errnos c) ∨
     (∃ s, s ∈ retry_err_strings c ∧ str_contains s text = true)).

(** The decision the handler of the loop takes, as one boolean. *)
Definition retryable (c : HttpClient) (e : exc) : bool :=
  match e with
  | EnvError cls eno text => caught cls && retry_condition c eno text
  | _ => false
  end.

(** The state after one failed attempt that is retried: the call is recorded,
    then the sleep. *)
Definition fail_step (method url : string) (body : req_body)
    (hdrs : headers_t) (st : state) : state :=
  emit (EvSleep 100)
    (set_calls (S (calls st)) (emit (EvRequest method url body hdrs) st)).

Fixpoint fail_steps (method url : string) (body : req_body)
    (hdrs : headers_t) (k : nat) (st : state) : state :=
  match k with
  | O => st
  | S k' => fail_steps method url body hdrs k' (fail_step method url body hdrs st)
  end.

(** The locals after [k] retried failures [es 0 .. es (k-1)] from index [i]. *)
Definition locals_after (es : nat -> exc) (i k : nat) (lc : locals) : locals :=
  match k with
  | O => lc
  | S k' => {| v_i := Some (i + k')%nat; v_last_e := Some (es k');
               v_e := Some (es k'); v_z := v_z lc |}
  end.

(** ** Frame relations between states *)

(** What no step of [request] after its entry line changes: the transport
    oracle, the session, every live mapping object, and the number of
    recorded entries of [request]. *)
Definition frame (st st' : state) : Prop :=
  net st' = net st ∧
  session_id st' = session_id st ∧
  (∀ p, p ∈ reserved ∪ dom (heap st) →
        heap st' !! p = heap st !! p ∧ p ∈ reserved ∪ dom (heap st')) ∧
  (∀ m u, count (is_call m u) (trace st') = count (is_call m u) (trace st)).

(** What a step that does not touch the network leaves as it is. *)
Definition still (st st' : state) : Prop :=
  calls st' = calls st ∧ attempts st' = attempts st ∧ sleeps st' = sleeps st.

Definition respects (R : state -> state -> Prop) {A} (m : M A) : Prop :=
  ∀ st, R st (m st).1.

(** Both relations at once: the steps of [request] that neither enter
    [request] nor touch the network. *)
Definition quiet (st st' : state) : Prop := frame st st' ∧ still st st'.

(** The log messages other than the entry line of [request]. *)
Definition not_entry (msg : log_msg) : Prop :=
  match msg with LogMethodUrl _ _ => False | _ => True end.

(** The state after the first two log lines of [request]. *)
Definition entry_state (c : HttpClient) (method api_url : string) (st : state) : state :=
  emit (EvLog DEBUG (LogMethodUrl method api_url))
    (emit (EvLog DEBUG (LogFullUrl (url_base c +:+ api_url))) st).

(** Exactly one of [file_name] and [file_content] is given. *)
Definition exactly_one_file_arg (kw : kwargs) : Prop :=
  (file_name kw = None ∧ file_content kw ≠ None) ∨
  (file_name kw ≠ None ∧ file_content kw = None).

(** The body [request_send] passes to the transport. *)
Definition send_body (kw : kwargs) (payload : option string) : req_body :=
  match file_name kw with
  | Some fn => Files fn (file_content kw) payload
  | None => Data payload
  end.

(** ** What a request sends, and the login step *)

(** [st'] is [st] with more events in its trace, all of them in [P]. *)
Definition appends (P : event → Prop) (st st' : state) : Prop :=
  ∃ t : list event, trace st' = (trace st ++ t)%list ∧ Forall P t.

(** The event is no call of the transport, or it is the call of
    [requests.request] with exactly this method, URL, body and headers. *)
Definition sent_as (method url : string) (body : req_body) (hdrs : headers_t)
    (ev : event) : Prop :=
  match ev with
  | EvRequest m u b h => m = method ∧ u = url ∧ b = body ∧ h = hdrs
  | _ => True
  end.

(** The mapping [request] serialises: the caller's [params], merged with the
    reformatted [axapi_args] when these are given. *)
Definition effective_params `{Ext : Externals} (kw : kwargs) (d : dict) : dict :=
  match axapi_args kw with
  | Some a => merge_dicts d (format_axapi_args a)
  | None => d
  end.

(** Lines 199 to 205 of [authenticate]: the POST and what is made of its
    answer; [ref] is the reference to the payload. *)
Definition authenticate_login `{Ext : Externals} (s : Session) (ref : loc)
    : M json :=
  r <- post (http s) "/axapi/v3/auth" (Some ref) None no_kwargs ;;
  has_auth <- lift (py_in "authresponse" r) ;;
  (if has_auth : bool
   then a <- lift (py_getitem r "authresponse") ;;
        sig <- lift (py_getitem a "signature") ;;
        tok <- lift (py_str sig) ;;
        put_session_id (Some tok)
   else put_session_id None) ;;;
  ret r.

(** No two keys of the mapping become the same key when their underscores
    are turned into hyphens. *)
Definition no_key_collision (a : dict) : Prop :=
  ∀ k1 k2, is_Some (a !! k1) → is_Some (a !! k2) →
           str_replace "_" "-" k1 = str_replace "_" "-" k2 → k1 = k2.

(** The errors a client built with the errnos [l] retries, in terms of the
    arguments of its constructor: a socket or connection error whose errno
    is in [l], or whose string form contains "BadStatusLine", "[Errno n]" for
    an [n] of [l], or the name [errno.errorcode] gives to such an [n]. *)
Definition configured_retry `{Ext : Externals} (l : list Z) (e : exc) : Prop :=
  ∃ cls eno text,
    e = EnvError cls eno text ∧ caught cls = true ∧
    ((∃ n, eno = Some n ∧ n ∈ l) ∨
     str_contains "BadStatusLine" text = true ∨
     ∃ n, n ∈ l ∧
          (str_contains ("[Errno " +:+ pretty n +:+ "]") text = true ∨
           ∃ name, errorcode !! n = Some name ∧
                   str_contains name text = true)).

(** A socket or connection error whose string form contains
    "BadStatusLine". *)
Definition bad_status_line_error (e : exc) : Prop :=
  ∃ cls eno text,
    e = EnvError cls eno text ∧ caught cls = true ∧
    str_contains "BadStatusLine" text = true.

(** The token a response to the auth request carries. *)
Definition token_of `{Ext : Externals} (r : json) (tok : string) : Prop :=
  ∃ (d : dict) a sig,
    r = JObj d ∧ d !! "authresponse" = Some a ∧
    py_getitem a "signature" = Ok sig ∧ py_str sig = Ok tok.

(** * Properties *)

Local Close Scope Z_scope.

(** ** Counting events *)

Lemma count_app p t1 t2 : count p (t1 ++ t2) = (count p t1 + count p t2)%nat.
Proof. unfold count. by rewrite List.filter_app, length_app. Qed.

Lemma count_snoc p t ev :
  count p (t ++ [ev]) = (count p t + if p ev then 1 else 0)%nat.
Proof. rewrite count_app. unfold count. simpl. by destruct (p ev). Qed.

Section Respects.
Context (R : state -> state -> Prop).
Context (R_refl : ∀ st, R st st).
Context (R_trans : ∀ a b c, R a b → R b c → R a c).

Lemma respects_ret {A} (a : A) : respects R (ret a).
Proof. intros st. apply R_refl. Qed.

Lemma respects_raise {A} e : respects R (@raise A e).
Proof. intros st. apply R_refl. Qed.

Lemma respects_lift {A} (r : result A) : respects R (lift r).
Proof. intros st. apply R_refl. Qed.

Lemma respects_deref p : respects R (deref p).
Proof. intros st. apply R_refl. Qed.

Lemma respects_bind {A B} (m : M A) (k : A -> M B) :
  respects R m → (∀ a, respects R (k a)) → respects R (bind m k).
Proof.
  intros Hm Hk st. unfold bind. specialize (Hm st).
  destruct (m st) as [st1 [a|e]]; simpl in *; [|done].
  eapply R_trans; [exact Hm|apply Hk].
Qed.
End Respects.

Lemma frame_refl st : frame st st.
Proof. unfold frame. auto. Qed.

Lemma frame_trans a b c : frame a b → frame b c → frame a c.
Proof.
  intros (n1 & s1 & h1 & c1) (n2 & s2 & h2 & c2).
  split; [congruence|]. split; [congruence|]. split.
  - intros p Hp. destruct (h1 p Hp) as [E1 L1]. destruct (h2 p L1) as [E2 L2].
    split; [congruence|done].
  - intros. by rewrite c2, c1.
Qed.

Lemma still_refl st : still st st.
Proof. by repeat split. Qed.

Lemma still_trans a b c : still a b → still b c → still a c.
Proof. intros (?&?&?) (?&?&?). repeat split; congruence. Qed.

Lemma quiet_refl st : quiet st st.
Proof. split; [apply frame_refl|apply still_refl]. Qed.

Lemma quiet_trans a b c : quiet a b → quiet b c → quiet a c.
Proof.
  intros [] []. split; [eapply frame_trans|eapply still_trans]; eauto.
Qed.

Lemma frame_emit ev st :
  (∀ m u, is_call m u ev = false) → frame st (emit ev st).
Proof.
  intros H. unfold frame. split_and!; auto. intros m u. simpl.
  rewrite count_snoc, H. lia.
Qed.

Lemma quiet_log lvl msg : not_entry msg → respects quiet (log lvl msg).
Proof.
  intros H st. split.
  - apply frame_emit. intros. destruct lvl, msg; simpl in *; done.
  - repeat split; unfold attempts, sleeps; simpl; rewrite count_snoc; simpl; lia.
Qed.

Lemma quiet_alloc d : respects quiet (alloc d).
Proof.
  intros st. split; [|by repeat split].
  unfold frame. split_and!; auto; simpl.
  intros p Hp. split.
  - rewrite lookup_insert_ne; [reflexivity|].
    intros Heq. rewrite <- Heq in Hp. exact (is_fresh _ Hp).
  - rewrite dom_insert_L. apply elem_of_union in Hp as [Hp|Hp].
    + apply elem_of_union. by left.
    + apply elem_of_union. right. apply elem_of_union. by right.
Qed.

Lemma quiet_sleep_frame : respects frame sleep.
Proof. intros st. by apply frame_emit. Qed.

Lemma frame_requests_request method url body hdrs :
  respects frame (requests_request method url body hdrs).
Proof.
  intros st. unfold requests_request.
  assert (frame st (set_calls (S (calls st))
                      (emit (EvRequest method url body hdrs) st))) as H.
  { unfold frame. split_and!; auto. intros m u. simpl.
    rewrite count_snoc. simpl. lia. }
  by destruct (net st (calls st)).
Qed.

Lemma quiet_frame {A} (m : M A) : respects quiet m → respects frame m.
Proof. intros H st. apply H. Qed.

Ltac respects_step :=
  match goal with
  | |- respects quiet (bind _ _) =>
      apply (respects_bind quiet quiet_trans); [|intros ?]
  | |- respects frame (bind _ _) =>
      apply (respects_bind frame frame_trans); [|intros ?]
  | |- respects quiet (ret _) => apply (respects_ret quiet quiet_refl)
  | |- respects quiet (raise _) => apply (respects_raise quiet quiet_refl)
  | |- respects quiet (lift _) => apply (respects_lift quiet quiet_refl)
  | |- respects quiet (deref _) => apply (respects_deref quiet quiet_refl)
  | |- respects quiet (log _ _) => apply quiet_log; exact I
  | |- respects quiet (alloc _) => apply quiet_alloc
  | |- respects _ (match ?x with _ => _ end) => destruct x
  | |- respects _ (let _ := _ in _) => cbv zeta
  end.

Section ClientFacts.
Context `{Ext : Externals}.

Lemma quiet_handle_response method api_url headers z :
  respects quiet (handle_response method api_url headers z).
Proof.
  unfold handle_response, raise_axapi_ex, raise_axapi_auth_error.
  repeat respects_step.
Qed.

Lemma quiet_request_finish c method api_url headers lc :
  respects quiet (request_finish c method api_url headers lc).
Proof.
  unfold request_finish. repeat respects_step.
  all: apply quiet_handle_response.
Qed.


Lemma bind_log {A} lvl msg (k : unit -> M A) st :
  bind (log lvl msg) k st = k tt (emit (EvLog lvl msg) st).
Proof. reflexivity. Qed.

Lemma request_prepare_quiet c method api_url p headers kw st :
  quiet (entry_state c method api_url st)
        (request_prepare c method api_url p headers kw st).1.
Proof.
  unfold request_prepare. rewrite !bind_log.
  match goal with
  | |- quiet _ (?m _).1 => assert (respects quiet m) as H
  end.
  { repeat respects_step. }
  apply H.
Qed.

Lemma request_prepare_result c method api_url p headers kw st :
  (exactly_one_file_arg kw →
   (request_prepare c method api_url p headers kw st).2 =
     Raise (ValueError
              "file_name and file_content must both be populated if one is")) ∧
  (¬ exactly_one_file_arg kw →
   ∃ ph, (request_prepare c method api_url p headers kw st).2 = Ok ph).
Proof.
  unfold exactly_one_file_arg, request_prepare, bind, log, deref, alloc, ret, raise.
  destruct (axapi_args kw), (file_name kw), (file_content kw); simpl;
    split; intros H; try (exfalso; clear -H; naive_solver); try done;
    repeat case_match; simplify_eq/=; eauto.
Qed.

Lemma frame_retry_loop c send n : 
  respects frame send →
  ∀ i lc st, frame st (retry_loop c send n i lc st).1.
Proof.
  intros Hs. induction n as [|n IH]; intros i lc st; simpl.
  - apply frame_refl.
  - specialize (Hs st). destruct (send st) as [st1 [z|e]]; simpl in *; [done|].
    destruct e; try done.
    destruct (caught cls); [|done].
    destruct (retry_condition c eno text); [|done].
    eapply frame_trans; [exact Hs|].
    eapply frame_trans; [|apply IH]. apply quiet_sleep_frame.
Qed.

Lemma frame_request_send c method api_url kw payload hdrs :
  respects frame (request_send c method api_url kw payload hdrs).
Proof.
  unfold request_send. destruct (file_name kw); apply frame_requests_request.
Qed.


Lemma request_send_eq c method api_url kw payload hdrs :
  request_send c method api_url kw payload hdrs =
  requests_request method (url_base c +:+ api_url) (send_body kw payload) hdrs.
Proof. unfold request_send, send_body. by destruct (file_name kw). Qed.

Lemma retryable_inv c e :
  retryable c e = true →
  ∃ cls eno text, e = EnvError cls eno text ∧ caught cls = true ∧
                  retry_condition c eno text = true.
Proof.
  destruct e; simpl; try done. intros [? ?]%andb_true_iff.
  by exists cls, eno, text.
Qed.

Lemma retry_loop_failures c method url body hdrs k :
  ∀ (es : nat → exc) n i lc st,
    (∀ j, (j < k)%nat →
          net st (calls st + j) = Raises (es j) ∧ retryable c (es j) = true) →
    retry_loop c (requests_request method url body hdrs) (k + n) i lc st =
    retry_loop c (requests_request method url body hdrs) n (i + k)
      (locals_after es i k lc) (fail_steps method url body hdrs k st).
Proof.
  induction k as [|k IH]; intros es n i lc st H.
  - simpl. by rewrite Nat.add_0_r.
  - destruct (H 0%nat ltac:(lia)) as [H0 R0].
    apply retryable_inv in R0 as (cls & eno & text & E0 & Hc & Hr).
    rewrite Nat.add_0_r in H0.
    change (S k + n)%nat with (S (k + n)).
    cbn [retry_loop]. unfold requests_request at 1. rewrite H0, E0, Hc, Hr.
    cbn [sleep].
    rewrite (IH (fun j => es (S j))).
    + cbn [fail_steps]. unfold fail_step. f_equal; [lia|].
      destruct k as [|k']; unfold locals_after, set_last_e, set_e, set_i; simpl;
        rewrite <- ?E0; f_equal; f_equal; lia.
    + intros j Hj. simpl. replace (S (calls st + j)) with (calls st + S j)%nat by lia.
      apply H. lia.
Qed.

Lemma fail_steps_facts method url body hdrs k : ∀ st,
  let st' := fail_steps method url body hdrs k st in
  frame st st' ∧ calls st' = (calls st + k)%nat ∧
  attempts st' = (attempts st + k)%nat ∧ sleeps st' = (sleeps st + k)%nat.
Proof.
  induction k as [|k IH]; intros st; simpl.
  - split; [apply frame_refl|]. lia.
  - destruct (IH (fail_step method url body hdrs st)) as (F & C & A & S).
    split_and!.
    + eapply frame_trans; [|exact F].
      unfold fail_step, frame. split_and!; auto. intros m u. simpl.
      rewrite !count_snoc. simpl. lia.
    + rewrite C. simpl. lia.
    + rewrite A. unfold attempts, fail_step. simpl. rewrite !count_snoc. simpl. lia.
    + rewrite S. unfold sleeps, fail_step. simpl. rewrite !count_snoc. simpl. lia.
Qed.

(** [request] after [k] retried failures: the state is that of the prelude
    followed by [k] failed attempts, and what is left are the remaining
    iterations and the lines after the loop. *)
Lemma request_after_failures c method api_url params headers kw st es k :
  ¬ exactly_one_file_arg kw →
  (k ≤ retry_cap)%nat →
  (∀ j, (j < k)%nat →
        net st (calls st + j) = Raises (es j) ∧ retryable c (es j) = true) →
  ∃ st0 payload hdrs,
    quiet (entry_state c method api_url st) st0 ∧
    request c method api_url params headers kw st =
    bind (retry_loop c
            (requests_request method (url_base c +:+ api_url)
               (send_body kw payload) hdrs)
            (retry_cap - k) k (locals_after es 0 k no_locals))
         (request_finish c method api_url headers)
         (fail_steps method (url_base c +:+ api_url) (send_body kw payload)
            hdrs k st0).
Proof.
  intros Hf Hk H.
  pose proof (request_prepare_quiet c method api_url
                (default request_default_params params) headers kw st) as Hq.
  destruct (request_prepare_result c method api_url
              (default request_default_params params) headers kw st)
    as [_ Hr].
  destruct (Hr Hf) as [[payload hdrs] Hph].
  unfold request. unfold bind at 1.
  destruct (request_prepare c method api_url
              (default request_default_params params) headers kw st)
    as [st0 r] eqn:E.
  simpl in Hph, Hq. subst r.
  exists st0, payload, hdrs. split; [exact Hq|].
  cbn [fst snd]. rewrite request_send_eq. unfold bind.
  assert (∀ j, (j < k)%nat →
               net st0 (calls st0 + j) = Raises (es j) ∧
               retryable c (es j) = true) as H0.
  { destruct Hq as [(Hn & _) (Hc & _)]. simpl in Hn, Hc.
    intros j Hj. rewrite Hn, Hc. by apply H. }
  pose proof (retry_loop_failures c method (url_base c +:+ api_url)
                (send_body kw payload) hdrs k es (retry_cap - k) 0 no_locals
                st0 H0) as L.
  replace (k + (retry_cap - k))%nat with retry_cap in L by lia.
  by rewrite L.
Qed.


Lemma retryable_spec c e : retryable c e = true ↔ Retryable c e.
Proof.
  unfold Retryable, retryable, retry_condition. split.
  - destruct e; try done. intros [Hc Hr]%andb_true_iff.
    exists cls, eno, text. split; [done|].
    split; [destruct cls; [by left|by right|done]|].
    apply orb_true_iff in Hr as [Hr|Hr].
    + left. destruct eno as [n|]; [|done]. exists n. split; [done|].
      by apply bool_decide_eq_true in Hr.
    + right. apply existsb_exists in Hr as (s & Hs & Hc').
      exists s. split; [by apply list_elem_of_In|done].
  - intros (cls & eno & text & -> & Hc & Hr).
    apply andb_true_iff. split; [by destruct Hc as [-> | ->]|].
    apply orb_true_iff. destruct Hr as [(n & -> & Hn)|(s & Hs & Hc')].
    + left. by apply bool_decide_eq_true.
    + right. apply existsb_exists. exists s. split; [by apply list_elem_of_In|done].
Qed.

Lemma still_entry_state c method api_url st :
  still st (entry_state c method api_url st).
Proof.
  unfold still, entry_state, attempts, sleeps. simpl.
  rewrite !count_snoc. simpl. lia.
Qed.

Lemma frame_entry_state c method api_url st :
  let st' := entry_state c method api_url st in
  net st' = net st ∧ session_id st' = session_id st ∧ heap st' = heap st ∧
  ∀ m u, count (is_call m u) (trace st') =
         (count (is_call m u) (trace st) +
          if String.eqb method m && String.eqb api_url u then 1 else 0)%nat.
Proof.
  simpl. split_and!; auto. intros m u. rewrite !count_snoc. simpl. lia.
Qed.

Lemma bind_still {A B} (m : M A) (k : A → M B) st :
  (∀ a, respects quiet (k a)) → quiet (m st).1 (bind m k st).1.
Proof.
  intros Hk. unfold bind. destruct (m st) as [st1 [a|e]]; simpl.
  - apply Hk.
  - apply quiet_refl.
Qed.

Lemma requests_request_step method url body hdrs st :
  let res := requests_request method url body hdrs st in
  calls res.1 = S (calls st) ∧ attempts res.1 = S (attempts st) ∧
  sleeps res.1 = sleeps st ∧
  res.2 = match net st (calls st) with
          | Returns z => Ok z
          | Raises e => Raise e
          end.
Proof.
  unfold requests_request, attempts, sleeps.
  destruct (net st (calls st)); simpl; rewrite count_snoc; simpl;
    rewrite count_snoc; simpl; split_and!; auto; lia.
Qed.

Lemma sleep_step st :
  calls (sleep st).1 = calls st ∧ attempts (sleep st).1 = attempts st ∧
  sleeps (sleep st).1 = S (sleeps st).
Proof.
  unfold sleep, attempts, sleeps. simpl. rewrite !count_snoc. simpl. lia.
Qed.

(** The loop makes at least one attempt when it has an iteration to run, and
    takes back no sleep. *)
Lemma retry_loop_mono c method url body hdrs n : ∀ i lc st,
  let st' := (retry_loop c (requests_request method url body hdrs) n i lc st).1 in
  (calls st + Nat.min 1 n ≤ calls st')%nat ∧ (sleeps st ≤ sleeps st')%nat.
Proof.
  induction n as [|n IH]; intros i lc st; [simpl; lia|].
  cbn [retry_loop]. cbv zeta.
  pose proof (requests_request_step method url body hdrs st) as (C & _ & S & _).
  destruct (requests_request method url body hdrs st) as [st1 [z|e]];
    simpl in C, S; [simpl; lia|].
  destruct e; try (simpl; lia).
  destruct (caught cls); [|simpl; lia].
  destruct (retry_condition c eno text); [|simpl; lia].
  pose proof (sleep_step st1) as (C2 & _ & S2).
  destruct (sleep st1) as [st2 u]. simpl in C2, S2.
  match goal with
  | |- context [retry_loop _ _ n ?i ?lc ?st] =>
      destruct (IH i lc st) as [C3 S3]
  end.
  simpl in C3, S3. simpl. lia.
Qed.

Lemma request_exhausted c method api_url params headers kw st es k :
  retry_cap = S k →
  ¬ exactly_one_file_arg kw →
  (∀ j, (j < retry_cap)%nat →
        net st (calls st + j) = Raises (es j) ∧ Retryable c (es j)) →
  let res := request c method api_url params headers kw st in
  res.2 = Raise (es k) ∧
  calls res.1 = (calls st + retry_cap)%nat ∧
  attempts res.1 = (attempts st + retry_cap)%nat ∧
  sleeps res.1 = (sleeps st + retry_cap)%nat.
Proof.
  intros Hcap Hf H.
  destruct (request_after_failures c method api_url params headers kw st es
              (S k) Hf ltac:(lia)) as (st0 & payload & hdrs & Hq & E).
  { intros j Hj. destruct (H j ltac:(lia)).
    split; [done|by apply retryable_spec]. }
  cbv zeta. rewrite E. clear E.
  replace (retry_cap - S k)%nat with 0%nat by lia. rewrite Hcap.
  pose proof (fail_steps_facts method (url_base c +:+ api_url)
                (send_body kw payload) hdrs (S k) st0) as (_ & HC & HA & HS).
  set (st1 := fail_steps _ _ _ _ (S k) st0) in *. clearbody st1.
  pose proof (still_entry_state c method api_url st) as (C0 & A0 & S0).
  destruct Hq as [_ (C1 & A1 & S1)].
  unfold bind, retry_loop, locals_after, request_finish, bind, ret, log, raise.
  cbn [v_i v_last_e v_e fst snd].
  unfold attempts, sleeps in *. cbn [trace emit set_trace calls].
  rewrite !count_snoc. cbn [is_attempt is_sleep].
  split_and!; [done|lia..].
Qed.

(** The state in which attempt [k] of a call is made, after [k] retried
    failures. *)
Lemma request_at_attempt c method api_url params headers kw st es k :
  ¬ exactly_one_file_arg kw →
  (k < retry_cap)%nat →
  (∀ j, (j < k)%nat →
        net st (calls st + j) = Raises (es j) ∧ Retryable c (es j)) →
  ∃ st1 body hdrs n lc,
    net st1 = net st ∧ calls st1 = (calls st + k)%nat ∧
    attempts st1 = (attempts st + k)%nat ∧ sleeps st1 = (sleeps st + k)%nat ∧
    v_z lc = None ∧
    request c method api_url params headers kw st =
    bind (retry_loop c
            (requests_request method (url_base c +:+ api_url) body hdrs)
            (S n) k lc)
         (request_finish c method api_url headers) st1.
Proof.
  intros Hf Hk H.
  destruct (request_after_failures c method api_url params headers kw st es
              k Hf ltac:(lia)) as (st0 & payload & hdrs & Hq & E).
  { intros j Hj. destruct (H j Hj). split; [done|by apply retryable_spec]. }
  pose proof (fail_steps_facts method (url_base c +:+ api_url)
                (send_body kw payload) hdrs k st0) as ((N & _) & HC & HA & HS).
  pose proof (still_entry_state c method api_url st) as (C0 & A0 & S0).
  destruct Hq as [(N1 & _) (C1 & A1 & S1)]. simpl in N1.
  destruct (retry_cap - k)%nat as [|n] eqn:Hn; [lia|].
  eexists _, _, _, n, _. split_and!; [| | | | |exact E]; try lia; try congruence.
  by destruct k.
Qed.

Lemma request_completed c method api_url params headers kw st es k z :
  ¬ exactly_one_file_arg kw →
  (k < retry_cap)%nat →
  (∀ j, (j < k)%nat →
        net st (calls st + j) = Raises (es j) ∧ Retryable c (es j)) →
  net st (calls st + k) = Returns z →
  ∃ st1, calls st1 = (calls st + S k)%nat ∧
         request c method api_url params headers kw st =
         handle_response method api_url headers z st1.
Proof.
  intros Hf Hk H Hz.
  destruct (request_at_attempt c method api_url params headers kw st es k
              Hf Hk H) as (st1 & body & hdrs & n & lc & N & C & _ & _ & _ & E).
  rewrite E. clear E. unfold bind at 1. cbn [retry_loop].
  pose proof (requests_request_step method (url_base c +:+ api_url) body hdrs st1)
    as (C2 & _ & _ & R).
  rewrite N, C, Hz in R.
  destruct (requests_request method (url_base c +:+ api_url) body hdrs st1)
    as [st2 r]. simpl in C2, R. subst r.
  unfold request_finish, bind, ret, log. cbn.
  eexists. split; [|reflexivity]. simpl. lia.
Qed.

Lemma request_raised_at c method api_url params headers kw st es k e :
  ¬ exactly_one_file_arg kw →
  (k < retry_cap)%nat →
  (∀ j, (j < k)%nat →
        net st (calls st + j) = Raises (es j) ∧ Retryable c (es j)) →
  net st (calls st + k) = Raises e →
  ¬ Retryable c e →
  let res := request c method api_url params headers kw st in
  res.2 = Raise e ∧ calls res.1 = (calls st + S k)%nat ∧
  attempts res.1 = (attempts st + S k)%nat ∧
  sleeps res.1 = (sleeps st + k)%nat.
Proof.
  intros Hf Hk H He Hn.
  destruct (request_at_attempt c method api_url params headers kw st es k
              Hf Hk H) as (st1 & body & hdrs & n & lc & N & C & A & S1 & _ & E).
  pose proof (requests_request_step method (url_base c +:+ api_url) body hdrs st1)
    as (C2 & A2 & S2 & R).
  rewrite N, C, He in R.
  assert (retryable c e = false) as Hb.
  { destruct (retryable c e) eqn:Hb; [|done].
    by apply retryable_spec in Hb. }
  assert (request c method api_url params headers kw st =
          ((requests_request method (url_base c +:+ api_url) body hdrs st1).1,
           Raise e)) as ->.
  { rewrite E. unfold bind at 1. cbn [retry_loop].
    destruct (requests_request method (url_base c +:+ api_url) body hdrs st1)
      as [st2 r]. simpl in R. subst r. simpl.
    destruct e; try done. simpl in Hb.
    destruct (caught cls); [|done]. simpl in Hb. by rewrite Hb. }
  simpl. split_and!; [done|lia..].
Qed.

Lemma request_retried_at c method api_url params headers kw st es k e :
  ¬ exactly_one_file_arg kw →
  (k < retry_cap)%nat →
  (∀ j, (j < k)%nat →
        net st (calls st + j) = Raises (es j) ∧ Retryable c (es j)) →
  net st (calls st + k) = Raises e →
  Retryable c e →
  let res := request c method api_url params headers kw st in
  (sleeps st + S k ≤ sleeps res.1)%nat ∧
  ((S k < retry_cap)%nat → (calls st + S (S k) ≤ calls res.1)%nat).
Proof.
  intros Hf Hk H He Hr.
  set (es' := fun j => if Nat.eqb j k then e else es j).
  destruct (request_after_failures c method api_url params headers kw st es'
              (S k) Hf ltac:(lia)) as (st0 & payload & hdrs & Hq & E).
  { intros j Hj. unfold es'. destruct (Nat.eqb_spec j k) as [->|Hne].
    - split; [done|by apply retryable_spec].
    - destruct (H j ltac:(lia)). split; [done|by apply retryable_spec]. }
  cbv zeta. rewrite E. clear E.
  pose proof (fail_steps_facts method (url_base c +:+ api_url)
                (send_body kw payload) hdrs (S k) st0) as (_ & HC & HA & HS).
  set (st1 := fail_steps _ _ _ _ (S k) st0) in *. clearbody st1.
  pose proof (still_entry_state c method api_url st) as (C0 & A0 & S0).
  destruct Hq as [_ (C1 & A1 & S1)].
  match goal with
  | |- context [bind (retry_loop ?c ?s ?n ?i ?lc) ?f st1] =>
      pose proof (bind_still (retry_loop c s n i lc) f st1
                    (quiet_request_finish _ _ _ _)) as [_ (C3 & _ & S3)];
      pose proof (retry_loop_mono c method (url_base c +:+ api_url)
                    (send_body kw payload) hdrs n i lc st1) as [C4 S4]
  end.
  cbv zeta in C4, S4. rewrite C3, S3. clear C3 S3.
  match goal with
  | |- context [retry_loop ?c ?s ?n ?i ?lc st1] =>
      set (st2 := (retry_loop c s n i lc st1).1) in *; clearbody st2
  end.
  split; [lia|].
  intros Hlt. destruct (retry_cap - S k)%nat eqn:?; [lia|]. simpl in C4. lia.
Qed.


Lemma request_frame c method api_url params headers kw st :
  frame (entry_state c method api_url st)
        (request c method api_url params headers kw st).1.
Proof.
  unfold request. unfold bind at 1.
  pose proof (request_prepare_quiet c method api_url
                (default request_default_params params) headers kw st) as [Hq _].
  destruct (request_prepare c method api_url
              (default request_default_params params) headers kw st)
    as [st0 [ph|e]]; simpl in Hq; [|done].
  eapply frame_trans; [exact Hq|].
  apply (respects_bind frame frame_trans).
  - intros st1. apply frame_retry_loop, frame_request_send.
  - intros lc. apply quiet_frame, quiet_request_finish.
Qed.

End ClientFacts.

(** ** HttpClient.request: the statements of the specification *)

Section ClientClaims.
Context `{Ext : Externals}.

(** C1: a request whose every attempt fails with a retryable error is
    attempted exactly 1500 times and then raises the error of the last
    attempt. *)
Theorem request_exhausts_retry_cap c method api_url params headers kw st
    (es : nat → exc) :
  ¬ exactly_one_file_arg kw →
  (∀ j, (j < 1500)%nat →
        net st (calls st + j) = Raises (es j) ∧ Retryable c (es j)) →
  let res := request c method api_url params headers kw st in
  attempts res.1 = (attempts st + 1500)%nat ∧
  calls res.1 = (calls st + 1500)%nat ∧
  res.2 = Raise (es 1499%nat).
Proof.
  intros Hf H.
  destruct (request_exhausted c method api_url params headers kw st es
              1499%nat eq_refl Hf H) as (R & C & A & _).
  change retry_cap with 1500%nat in C, A. by split_and!.
Qed.

(** C2: a failed attempt is retried (the handler sleeps and the loop goes on,
    to the next attempt while the cap allows one) if and only if its error is
    a socket or connection error whose errno is in the retry set or whose
    string form contains a retry marker; any other error is raised at once,
    with no attempt and no sleep after it. *)
Theorem request_retries_iff_retryable c method api_url params headers kw st
    (es : nat → exc) k e :
  ¬ exactly_one_file_arg kw →
  (k < 1500)%nat →
  (∀ j, (j < k)%nat →
        net st (calls st + j) = Raises (es j) ∧ Retryable c (es j)) →
  net st (calls st + k) = Raises e →
  let res := request c method api_url params headers kw st in
  (Retryable c e ↔ (sleeps st + S k ≤ sleeps res.1)%nat) ∧
  (Retryable c e → (S k < 1500)%nat →
   (calls st + S (S k) ≤ calls res.1)%nat) ∧
  (¬ Retryable c e →
   res.2 = Raise e ∧ calls res.1 = (calls st + S k)%nat ∧
   attempts res.1 = (attempts st + S k)%nat ∧
   sleeps res.1 = (sleeps st + k)%nat).
Proof.
  intros Hf Hk H He res.
  assert (Retryable c e ∨ ¬ Retryable c e) as Hdec.
  { destruct (retryable c e) eqn:Hb.
    - left. by apply retryable_spec.
    - right. intros Hr%retryable_spec. congruence. }
  split_and!.
  - split.
    + intros Hr.
      by destruct (request_retried_at c method api_url params headers kw st
                     es k e Hf Hk H He Hr).
    + intros Hs. destruct Hdec as [Hr|Hn]; [done|].
      destruct (request_raised_at c method api_url params headers kw st
                  es k e Hf Hk H He Hn) as (_ & _ & _ & S1).
      fold res in S1. lia.
  - intros Hr.
    by destruct (request_retried_at c method api_url params headers kw st
                   es k e Hf Hk H He Hr).
  - intros Hn.
    apply (request_raised_at c method api_url params headers kw st
             es k e Hf Hk H He Hn).
Qed.

(** C5: when the request completes with response [z], a 204 status gives
    [None], which is not the empty mapping; a body that is not JSON gives the
    empty mapping on status 200 and raises the decode error on the statuses
    left (204 being decided first). *)
Theorem request_normalises_response c method api_url params headers kw st
    (es : nat → exc) k z :
  ¬ exactly_one_file_arg kw →
  (k < 1500)%nat →
  (∀ j, (j < k)%nat →
        net st (calls st + j) = Raises (es j) ∧ Retryable c (es j)) →
  net st (calls st + k) = Returns z →
  let res := request c method api_url params headers kw st in
  (status_code z = 204%Z → res.2 = Ok py_None) ∧
  (status_code z = 200%Z → json_body z = None → res.2 = Ok empty_dict) ∧
  (status_code z ≠ 204%Z → status_code z ≠ 200%Z → json_body z = None →
   res.2 = Raise JSONDecodeError) ∧
  py_None ≠ empty_dict.
Proof.
  intros Hf Hk H Hz res.
  destruct (request_completed c method api_url params headers kw st es k z
              Hf Hk H Hz) as (st1 & _ & E).
  subst res. rewrite E. unfold handle_response. split_and!.
  - intros ->. reflexivity.
  - intros -> ->. reflexivity.
  - intros H1%Z.eqb_neq H2%Z.eqb_neq ->. by rewrite H1, H2.
  - discriminate.
Qed.

(** C6: when the decoded body of the response has a nested [response.status]
    equal to "fail", the request raises the API error that carries its method
    and path (and the body). *)
Theorem request_raises_api_error c method api_url params headers kw st
    (es : nat → exc) k z (d inner : dict) :
  ¬ exactly_one_file_arg kw →
  (k < 1500)%nat →
  (∀ j, (j < k)%nat →
        net st (calls st + j) = Raises (es j) ∧ Retryable c (es j)) →
  net st (calls st + k) = Returns z →
  status_code z ≠ 204%Z →
  json_body z = Some (JObj d) →
  d !! "response" = Some (JObj inner) →
  inner !! "status" = Some (JStr "fail") →
  (request c method api_url params headers kw st).2 =
  Raise (ApiError method api_url (JObj d)).
Proof.
  intros Hf Hk H Hz Hs Hb Hd Hi.
  destruct (request_completed c method api_url params headers kw st es k z
              Hf Hk H Hz) as (st1 & _ & E).
  rewrite E. unfold handle_response.
  apply Z.eqb_neq in Hs. rewrite Hs, Hb.
  unfold bind, log, lift, ret, raise_axapi_ex, raise, py_in, py_getitem.
  rewrite Hd. rewrite bool_decide_eq_true_2 by eauto.
  rewrite Hi. rewrite bool_decide_eq_true_2 by eauto.
  reflexivity.
Qed.

(** C7: with exactly one of [file_name] and [file_content] given, [request]
    raises the ValueError of the argument check and has made no network
    attempt; with both or neither, the check passes and the request goes on to
    the network. *)
Theorem request_checks_file_arguments c method api_url params headers kw st :
  let res := request c method api_url params headers kw st in
  (exactly_one_file_arg kw →
   res.2 = Raise (ValueError
                    "file_name and file_content must both be populated if one is") ∧
   calls res.1 = calls st ∧ attempts res.1 = attempts st) ∧
  (¬ exactly_one_file_arg kw →
   (calls st < calls res.1)%nat).
Proof.
  intros res. split.
  - intros Hx.
    pose proof (request_prepare_quiet c method api_url
                  (default request_default_params params) headers kw st)
      as [_ (C & A & _)].
    destruct (request_prepare_result c method api_url
                (default request_default_params params) headers kw st)
      as [Hr _]. specialize (Hr Hx).
    pose proof (still_entry_state c method api_url st) as (C0 & A0 & _).
    assert (res = ((request_prepare c method api_url
                      (default request_default_params params) headers kw st).1,
                   Raise (ValueError
                     "file_name and file_content must both be populated if one is")))
      as ->.
    { subst res. unfold request. unfold bind at 1.
      destruct (request_prepare c method api_url
                  (default request_default_params params) headers kw st)
        as [st0 r]. cbn [snd] in Hr. by subst r. }
    cbn [fst snd]. split_and!; [done|congruence..].
  - intros Hf.
    destruct (request_at_attempt c method api_url params headers kw st
                (fun _ => JSONDecodeError) 0%nat Hf (Nat.lt_0_succ _))
      as (st1 & body & hdrs & n & lc & _ & C & _ & _ & _ & E).
    { intros j Hj. lia. }
    subst res. rewrite E.
    pose proof (bind_still
                  (retry_loop c (requests_request method (url_base c +:+ api_url)
                                   body hdrs) (S n) 0 lc)
                  (request_finish c method api_url headers) st1
                  (quiet_request_finish _ _ _ _)) as [_ (C3 & _)].
    pose proof (retry_loop_mono c method (url_base c +:+ api_url) body hdrs
                  (S n) 0%nat lc st1) as [C4 _].
    cbv zeta in C4. rewrite C3. change (1 `min` S n)%nat with 1%nat in C4.
    lia.
Qed.

(** C8: [request] leaves the mapping the caller passed as [params] as it was,
    and so every mapping object that was live when it was called. *)
Theorem request_keeps_params c method api_url params headers kw st :
  let res := request c method api_url params headers kw st in
  (∀ p d, params = Some p → heap st !! p = Some d →
          heap res.1 !! p = Some d) ∧
  (∀ q, q ∈ reserved ∪ dom (heap st) → heap res.1 !! q = heap st !! q).
Proof.
  intros res.
  pose proof (request_frame c method api_url params headers kw st)
    as (_ & _ & Hh & _).
  assert (∀ q, q ∈ reserved ∪ dom (heap st) → heap res.1 !! q = heap st !! q)
    as Hall.
  { intros q Hq. by destruct (Hh q Hq). }
  split; [|exact Hall].
  intros p d _ Hp. rewrite Hall; [done|].
  apply elem_of_union. right. apply elem_of_dom. eauto.
Qed.

(** C9: whatever [retry_errno_list] the client is built with, its retry
    markers contain "BadStatusLine", and [request] treats a socket or
    connection error whose string form contains it as retryable: when attempt
    [k] of a request fails with such an error, the handler of the loop sleeps
    and the loop goes on to the next attempt (while the cap allows one)
    instead of raising. *)
Theorem bad_status_line_is_retryable host port protocol retry_errno_list :
  let c := HttpClient_init host port protocol retry_errno_list in
  "BadStatusLine" ∈ retry_err_strings c ∧
  ∀ cls eno text,
    caught cls = true →
    str_contains "BadStatusLine" text = true →
    retryable c (EnvError cls eno text) = true ∧
    Retryable c (EnvError cls eno text) ∧
    ∀ method api_url params headers kw st (es : nat → exc) k,
      ¬ exactly_one_file_arg kw →
      (k < 1500)%nat →
      (∀ j, (j < k)%nat →
            net st (calls st + j) = Raises (es j) ∧ Retryable c (es j)) →
      net st (calls st + k) = Raises (EnvError cls eno text) →
      let res := request c method api_url params headers kw st in
      (sleeps st + S k ≤ sleeps res.1)%nat ∧
      ((S k < 1500)%nat → (calls st + S (S k) ≤ calls res.1)%nat).
Proof.
  intros c.
  assert ("BadStatusLine" ∈ retry_err_strings c) as Hin.
  { subst c. unfold HttpClient_init. simpl. apply list_elem_of_here. }
  split; [exact Hin|].
  intros cls eno text Hc Ht.
  assert (Retryable c (EnvError cls eno text)) as Hr.
  { exists cls, eno, text. split; [done|].
    split; [destruct cls; [by left|by right|done]|].
    right. by exists "BadStatusLine". }
  split; [by apply retryable_spec|]. split; [exact Hr|].
  intros method api_url params headers kw st es k Hf Hk H He.
  exact (request_retried_at c method api_url params headers kw st es k
           (EnvError cls eno text) Hf Hk H He Hr).
Qed.

End ClientClaims.

(** ** Session *)

Section SessionFacts.
Context `{Ext : Externals}.

Lemma post_auth_facts c params headers kw st :
  let st' := (post c "/axapi/v3/auth" params headers kw st).1 in
  session_id st' = session_id st ∧ auth_calls st' = S (auth_calls st).
Proof.
  unfold post.
  pose proof (request_frame c "POST" "/axapi/v3/auth"
                (Some (default post_default_params params)) headers kw st)
    as (_ & Hs & _ & Hc).
  pose proof (frame_entry_state c "POST" "/axapi/v3/auth" st)
    as (_ & Hs0 & _ & Hc0).
  cbv zeta in *. split; [congruence|].
  unfold auth_calls. rewrite Hc, Hc0. simpl. lia.
Qed.

(** What [authenticate] does on a session without a token, in terms of the
    result of its POST. *)
Lemma authenticate_unauthenticated s u p st :
  session_id st = None →
  let sta := (alloc (credentials u p) st).1 in
  let ref := fresh (reserved ∪ dom (heap st)) in
  let res := post (http s) "/axapi/v3/auth" (Some ref) None no_kwargs sta in
  Session_authenticate s u p st =
  match res.2 with
  | Raise e => (res.1, Raise e)
  | Ok r =>
      match py_in "authresponse" r with
      | Raise e => (res.1, Raise e)
      | Ok false => (set_session_id None res.1, Ok r)
      | Ok true =>
          match py_getitem r "authresponse" with
          | Raise e => (res.1, Raise e)
          | Ok a =>
              match py_getitem a "signature" with
              | Raise e => (res.1, Raise e)
              | Ok sig =>
                  match py_str sig with
                  | Raise e => (res.1, Raise e)
                  | Ok tok => (set_session_id (Some tok) res.1, Ok r)
                  end
              end
          end
      end
  end.
Proof.
  intros Hs. cbv zeta.
  unfold Session_authenticate. unfold bind at 1. unfold alloc at 1.
  unfold bind at 1. unfold get_session_id at 1. cbn [session_id set_heap].
  rewrite Hs. unfold bind at 1. unfold ret at 1. unfold bind at 1.
  unfold alloc. cbn [fst].
  destruct (post (http s) "/axapi/v3/auth" _ None no_kwargs _) as [st1 [r|e]];
    [|done].
  cbn [fst snd]. unfold bind, lift, put_session_id, ret.
  destruct (py_in "authresponse" r) as [[|]|]; try done.
  destruct (py_getitem r "authresponse") as [a|]; [|done].
  destruct (py_getitem a "signature") as [sig|]; [|done].
  by destruct (py_str sig).
Qed.

Lemma id_unauthenticated s st :
  session_id st = None →
  let res := Session_authenticate s (username s) (password s) st in
  Session_id s st =
  match res.2 with
  | Ok _ => (res.1, Ok (session_id res.1))
  | Raise e => (res.1, Raise e)
  end.
Proof.
  intros Hs. cbv zeta. unfold Session_id, bind, get_session_id. rewrite Hs.
  by destruct (Session_authenticate s (username s) (password s) st)
    as [st1 [r|e]].
Qed.

Lemma id_authenticated s st tok :
  session_id st = Some tok → Session_id s st = (st, Ok (Some tok)).
Proof.
  intros Hs. unfold Session_id, bind, get_session_id, ret.
  rewrite Hs. by rewrite Hs.
Qed.

(** Reading [id] without a cached token makes one authenticate call. *)
Lemma id_unauthenticated_calls s st :
  session_id st = None →
  auth_calls (Session_id s st).1 = S (auth_calls st).
Proof.
  intros Hs. rewrite (id_unauthenticated s st Hs). cbv zeta.
  rewrite (authenticate_unauthenticated s _ _ st Hs). cbv zeta.
  pose proof (post_auth_facts (http s)
                (Some (fresh (reserved ∪ dom (heap st)))) None no_kwargs
                (alloc (credentials (username s) (password s)) st).1)
    as [_ Hc].
  cbv zeta in Hc.
  change (auth_calls (alloc (credentials (username s) (password s)) st).1)
    with (auth_calls st) in Hc.
  destruct (post (http s) "/axapi/v3/auth" _ None no_kwargs _) as [st1 [r|e]];
    cbn [fst snd] in *; [|done].
  destruct (py_in "authresponse" r) as [[|]|]; try done.
  destruct (py_getitem r "authresponse") as [a|]; [|done].
  destruct (py_getitem a "signature") as [sig|]; [|done].
  by destruct (py_str sig).
Qed.

(** C3: [close] leaves the session without a token whatever the partition
    switch and the logoff request do, also when the logoff raises, and the
    next read of [id] authenticates afresh. *)
Theorem close_clears_token s st :
  let res := Session_close s st in
  session_id res.1 = None ∧
  (∀ e, res.2 = Raise e → session_id res.1 = None) ∧
  auth_calls (Session_id s res.1).1 = S (auth_calls res.1).
Proof.
  intros res.
  assert (session_id res.1 = None) as Hn.
  { subst res. unfold Session_close, bind, try_except_pass, get_session_id.
    destruct (partition_active st) as [st1 r].
    destruct (session_id st1) as [tok|] eqn:Hs; [|done].
    unfold try_finally.
    by destruct (post (http s) "/axapi/v3/logoff" None _ no_kwargs st1). }
  split_and!; [done|done|].
  by apply id_unauthenticated_calls.
Qed.

(** C4, as amended: on a session without a token whose first read of [id]
    obtains one, two reads with no [close] in between make exactly one
    authenticate call; the second read returns the cached token and leaves
    the world as it is. *)
Theorem id_memoizes_token s st st1 tok :
  session_id st = None →
  Session_id s st = (st1, Ok (Some tok)) →
  auth_calls st1 = S (auth_calls st) ∧
  Session_id s st1 = (st1, Ok (Some tok)) ∧
  auth_calls (Session_id s st1).1 = S (auth_calls st).
Proof.
  intros Hs H1.
  pose proof (id_unauthenticated_calls s st Hs) as Hc. rewrite H1 in Hc.
  cbn [fst] in Hc.
  assert (session_id st1 = Some tok) as Ht.
  { rewrite (id_unauthenticated s st Hs) in H1. cbv zeta in H1.
    destruct (Session_authenticate s (username s) (password s) st)
      as [st2 [r|e]]; cbn [fst snd] in H1; congruence. }
  rewrite (id_authenticated s st1 tok Ht). by split_and!.
Qed.

(** C10: when the response to the authenticate call is a mapping without
    "authresponse", no error is raised and the token is absent; the read of
    [id] that made the call returns [None]; and a read of [id] on a session
    without a token always makes a new authenticate call. *)
Theorem soft_auth_failure_is_not_memoized s st sta ref st2 (d : dict) :
  session_id st = None →
  alloc (credentials (username s) (password s)) st = (sta, Ok ref) →
  post (http s) "/axapi/v3/auth" (Some ref) None no_kwargs sta
    = (st2, Ok (JObj d)) →
  d !! "authresponse" = None →
  Session_authenticate s (username s) (password s) st
    = (set_session_id None st2, Ok (JObj d)) ∧
  Session_id s st = (set_session_id None st2, Ok None) ∧
  (∀ st', session_id st' = None →
          auth_calls (Session_id s st').1 = S (auth_calls st')) ∧
  auth_calls (Session_id s (Session_id s st).1).1 = S (S (auth_calls st)).
Proof.
  intros Hs Ha Hp Hd.
  assert (Session_authenticate s (username s) (password s) st
          = (set_session_id None st2, Ok (JObj d))) as E.
  { rewrite (authenticate_unauthenticated s _ _ st Hs). cbv zeta.
    unfold alloc in Ha. injection Ha as <- <-.
    unfold alloc. cbn [fst]. rewrite Hp. cbn [fst snd py_in].
    rewrite Hd. rewrite bool_decide_eq_false_2; [done|].
    by intros [? ?]. }
  assert (Session_id s st = (set_session_id None st2, Ok None)) as E2.
  { rewrite (id_unauthenticated s st Hs). cbv zeta. by rewrite E. }
  split_and!; [done|done|apply id_unauthenticated_calls|].
  rewrite id_unauthenticated_calls.
  - by rewrite id_unauthenticated_calls.
  - by rewrite E2.
Qed.

End SessionFacts.

(** ** The statements at concrete inputs *)

Module DemoFacts.
Import Demo.

Lemma no_file_args : ¬ exactly_one_file_arg no_kwargs.
Proof. intros [[_ H]|[H _]]; by apply H. Qed.

Lemma reset_retryable : Retryable client reset.
Proof. apply retryable_spec. vm_compute. reflexivity. Qed.

Lemma redirects_not_retryable : ¬ Retryable client too_many_redirects.
Proof. intros H%retryable_spec. vm_compute in H. discriminate. Qed.

Lemma bad_status_retryable : Retryable client bad_status.
Proof. apply retryable_spec. vm_compute. reflexivity. Qed.

Lemma two_resets o j :
  (j < 2)%nat →
  after_two_resets o (0 + j) = Raises reset ∧ Retryable client reset.
Proof.
  intros Hj. split; [|exact reset_retryable].
  destruct j as [|[|j]]; [reflexivity|reflexivity|lia].
Qed.

End DemoFacts.

Lemma request_exhausts_retry_cap_witness :
  let st := Demo.world (fun _ => Raises Demo.reset) None in
  let res := @request Demo.ext Demo.client "GET" "/axapi/v3/slb" None None
               no_kwargs st in
  attempts res.1 = 1500%nat ∧ calls res.1 = 1500%nat ∧
  res.2 = Raise Demo.reset.
Proof.
  apply (@request_exhausts_retry_cap Demo.ext Demo.client "GET" "/axapi/v3/slb"
           None None no_kwargs (Demo.world (fun _ => Raises Demo.reset) None)
           (fun _ => Demo.reset)).
  - exact DemoFacts.no_file_args.
  - intros j Hj. split; [reflexivity|exact DemoFacts.reset_retryable].
Defined.

Lemma request_retries_iff_retryable_witness :
  let st := Demo.world (Demo.after_two_resets
                          (Raises Demo.too_many_redirects)) None in
  let res := @request Demo.ext Demo.client "GET" "/axapi/v3/slb" None None
               no_kwargs st in
  res.2 = Raise Demo.too_many_redirects ∧ calls res.1 = 3%nat ∧
  attempts res.1 = 3%nat ∧ sleeps res.1 = 2%nat.
Proof.
  apply (@request_retries_iff_retryable Demo.ext Demo.client "GET"
           "/axapi/v3/slb" None None no_kwargs
           (Demo.world (Demo.after_two_resets
                          (Raises Demo.too_many_redirects)) None)
           (fun _ => Demo.reset) 2%nat Demo.too_many_redirects).
  - exact DemoFacts.no_file_args.
  - lia.
  - apply DemoFacts.two_resets.
  - reflexivity.
  - exact DemoFacts.redirects_not_retryable.
Defined.

Lemma request_normalises_response_witness :
  let z := {| status_code := 500; json_body := None |} in
  let st := Demo.world (Demo.after_two_resets (Returns z)) None in
  (@request Demo.ext Demo.client "GET" "/axapi/v3/slb" None None
     no_kwargs st).2 = Raise JSONDecodeError.
Proof.
  apply (@request_normalises_response Demo.ext Demo.client "GET"
           "/axapi/v3/slb" None None no_kwargs
           (Demo.world (Demo.after_two_resets
                          (Returns {| status_code := 500;
                                      json_body := None |})) None)
           (fun _ => Demo.reset) 2%nat
           {| status_code := 500; json_body := None |}).
  - exact DemoFacts.no_file_args.
  - lia.
  - apply DemoFacts.two_resets.
  - reflexivity.
  - discriminate.
  - discriminate.
  - reflexivity.
Defined.

Lemma request_raises_api_error_witness :
  let st := Demo.world (fun _ => Demo.ok_json Demo.api_fail) None in
  (@request Demo.ext Demo.client "POST" "/axapi/v3/slb/server" None None
     no_kwargs st).2 =
  Raise (ApiError "POST" "/axapi/v3/slb/server" Demo.api_fail).
Proof.
  apply (@request_raises_api_error Demo.ext Demo.client "POST"
           "/axapi/v3/slb/server" None None no_kwargs
           (Demo.world (fun _ => Demo.ok_json Demo.api_fail) None)
           (fun _ => Demo.reset) 0%nat
           {| status_code := 200; json_body := Some Demo.api_fail |}
           _ {[ "status" := JStr "fail";
                "err" := JObj {[ "msg" := JStr "x" ]} ]}).
  - exact DemoFacts.no_file_args.
  - lia.
  - intros j Hj. lia.
  - reflexivity.
  - discriminate.
  - reflexivity.
  - reflexivity.
  - reflexivity.
Defined.

Lemma request_checks_file_arguments_witness :
  let st := Demo.world (fun _ => Demo.ok_json Demo.auth_ok) None in
  let res := @request Demo.ext Demo.client "POST" "/axapi/v3/file/startup"
               None None Demo.upload_without_content st in
  res.2 = Raise (ValueError
                   "file_name and file_content must both be populated if one is") ∧
  calls res.1 = 0%nat ∧ attempts res.1 = 0%nat.
Proof.
  apply (@request_checks_file_arguments Demo.ext Demo.client "POST"
           "/axapi/v3/file/startup" None None Demo.upload_without_content
           (Demo.world (fun _ => Demo.ok_json Demo.auth_ok) None)).
  right. split; [discriminate|reflexivity].
Defined.

Lemma request_keeps_params_witness :
  let st := set_heap {[ 10%positive := Demo.vs_params ]}
              (Demo.world (fun _ => Demo.ok_json Demo.api_fail) None) in
  heap (@request Demo.ext Demo.client "POST" "/axapi/v3/slb/virtual-server"
          (Some 10%positive) None no_kwargs st).1 !! 10%positive
  = Some Demo.vs_params.
Proof.
  apply (@request_keeps_params Demo.ext Demo.client "POST"
           "/axapi/v3/slb/virtual-server" (Some 10%positive) None no_kwargs
           (set_heap {[ 10%positive := Demo.vs_params ]}
              (Demo.world (fun _ => Demo.ok_json Demo.api_fail) None))).
  - reflexivity.
  - reflexivity.
Defined.

Lemma bad_status_line_is_retryable_witness :
  let st := Demo.world (fun n => if Nat.eqb n 0 then Raises Demo.bad_status
                                 else Demo.ok_json Demo.auth_ok) None in
  let res := @request Demo.ext Demo.client_no_errnos "GET" "/axapi/v3/slb"
               None None no_kwargs st in
  retryable Demo.client_no_errnos Demo.bad_status = true ∧
  Retryable Demo.client_no_errnos Demo.bad_status ∧
  (1 ≤ sleeps res.1)%nat ∧ (2 ≤ calls res.1)%nat.
Proof.
  destruct (@bad_status_line_is_retryable Demo.ext "10.0.0.1" None "https" None)
    as [_ H].
  destruct (H RequestsConnectionError None
              "('Connection aborted.', BadStatusLine(''))" eq_refl eq_refl)
    as (Hb & Hr & Hreq).
  destruct (Hreq "GET" "/axapi/v3/slb" None None no_kwargs
              (Demo.world (fun n => if Nat.eqb n 0 then Raises Demo.bad_status
                                    else Demo.ok_json Demo.auth_ok) None)
              (fun _ => Demo.reset) 0%nat DemoFacts.no_file_args
              ltac:(lia) ltac:(intros j Hj; lia) eq_refl) as [Hs Hc].
  split_and!; [exact Hb|exact Hr|exact Hs|apply Hc; lia].
Defined.

Lemma close_clears_token_witness :
  let st := Demo.world (fun _ => Raises Demo.too_many_redirects)
              (Some "tok1") in
  let res := @Session_close Demo.ext_partition_fails Demo.session st in
  res.2 = Raise Demo.too_many_redirects ∧ session_id res.1 = None.
Proof.
  split; [reflexivity|].
  apply (@close_clears_token Demo.ext_partition_fails Demo.session
           (Demo.world (fun _ => Raises Demo.too_many_redirects) (Some "tok1")))
    with (e := Demo.too_many_redirects).
  reflexivity.
Defined.

Lemma id_memoizes_token_witness :
  let st := Demo.world (fun _ => Demo.ok_json Demo.auth_ok) None in
  let st1 := (@Session_id Demo.ext Demo.session st).1 in
  auth_calls st1 = 1%nat ∧
  @Session_id Demo.ext Demo.session st1 = (st1, Ok (Some "tok1")) ∧
  auth_calls (@Session_id Demo.ext Demo.session st1).1 = 1%nat.
Proof.
  apply (@id_memoizes_token Demo.ext Demo.session
           (Demo.world (fun _ => Demo.ok_json Demo.auth_ok) None)).
  - reflexivity.
  - vm_compute. reflexivity.
Defined.

(** C4 as stated fails: when the authenticate response carries no
    "authresponse", two reads of [id] make two authenticate calls. *)
Lemma id_twice_counterexample :
  let st := Demo.world (fun _ => Demo.ok_json (JObj ∅)) None in
  let r1 := @Session_id Demo.ext Demo.session st in
  let r2 := @Session_id Demo.ext Demo.session r1.1 in
  r1.2 = Ok None ∧ r2.2 = Ok None ∧
  auth_calls st = 0%nat ∧ auth_calls r2.1 = 2%nat ∧
  ¬ (auth_calls r2.1 = S (auth_calls st)).
Proof. vm_compute. split_and!; try reflexivity. discriminate. Qed.

Lemma soft_auth_failure_is_not_memoized_witness :
  let st := Demo.world (fun _ => Demo.ok_json (JObj ∅)) None in
  let r1 := @Session_id Demo.ext Demo.session st in
  r1.2 = Ok None ∧ session_id r1.1 = None ∧
  auth_calls (@Session_id Demo.ext Demo.session r1.1).1 = 2%nat.
Proof.
  pose (st := Demo.world (fun _ => Demo.ok_json (JObj ∅)) None).
  pose (a := alloc (credentials "admin" "a10") st).
  pose (ref := fresh (reserved ∪ dom (heap st))).
  pose (p := @post Demo.ext Demo.client "/axapi/v3/auth" (Some ref) None
               no_kwargs a.1).
  assert (p = (p.1, Ok (JObj ∅))) as Hp by (vm_compute; reflexivity).
  destruct (@soft_auth_failure_is_not_memoized Demo.ext Demo.session
              st a.1 ref p.1 ∅ eq_refl eq_refl Hp eq_refl)
    as (_ & E & _ & C).
  cbv zeta. fold st. rewrite E in C |- *.
  split_and!; [reflexivity|reflexivity|exact C].
Defined.

(** ** Runs of the model *)

Module Examples.
Import Demo.

(** Two resets, then the answer: the result of the third attempt, after two
    sleeps. *)
Example retried_then_success :
  let res := @request ext client "GET" "/axapi/v3/slb" None None no_kwargs
               (world (after_two_resets (ok_json auth_ok)) None) in
  res.2 = Ok auth_ok ∧ calls res.1 = 3%nat ∧ sleeps res.1 = 2%nat.
Proof. vm_compute. by split_and!. Qed.

(** A malformed status line is retried by a client built without errnos. *)
Example bad_status_line_retried :
  let res := @request ext client_no_errnos "GET" "/axapi/v3/slb" None None
               no_kwargs
               (world (fun n => if Nat.eqb n 0 then Raises bad_status
                                else ok_json auth_ok) None) in
  res.2 = Ok auth_ok ∧ calls res.1 = 2%nat ∧ sleeps res.1 = 1%nat.
Proof. vm_compute. by split_and!. Qed.

(** Errno 111 is not in the retry set of [client]: raised at once. *)
Example refused_not_retried :
  let res := @request ext client "GET" "/axapi/v3/slb" None None no_kwargs
               (world (fun _ => Raises refused) None) in
  res.2 = Raise refused ∧ calls res.1 = 1%nat ∧ sleeps res.1 = 0%nat.
Proof. vm_compute. by split_and!. Qed.

Example no_content :
  (@request ext client "DELETE" "/axapi/v3/slb/server/s1" None None no_kwargs
     (world (fun _ => Returns {| status_code := 204; json_body := None |})
        None)).2 = Ok py_None.
Proof. vm_compute. reflexivity. Qed.

Example ok_without_json :
  (@request ext client "GET" "/axapi/v3/slb" None None no_kwargs
     (world (fun _ => Returns {| status_code := 200; json_body := None |})
        None)).2 = Ok empty_dict.
Proof. vm_compute. reflexivity. Qed.

(** The payload is the serialised copy of [params]; the headers of a file
    upload carry no content type. *)
Example upload_headers :
  let kw := {| file_name := Some "startup.cfg"; file_content := Some "hostname a";
               axapi_args := None |} in
  let res := @request_prepare ext client "POST" "/axapi/v3/file/startup"
               post_default_params None kw (world (fun _ => ok_json auth_ok) None) in
  res.2 = Ok (None, {[ "User-Agent" := "ACOS-Client-AGENT-1.4.6" ]}).
Proof. vm_compute. reflexivity. Qed.

(** Logoff fails, the token is cleared and the error reaches the caller. *)
Example close_with_failing_logoff :
  let res := @Session_close ext session
               (world (fun _ => Raises refused) (Some "tok1")) in
  res.2 = Raise refused ∧ session_id res.1 = None.
Proof. vm_compute. by split_and!. Qed.

(** [authenticate] on a session that holds a token logs off first. *)
Example authenticate_again :
  let res := @Session_authenticate ext session "admin" "a10"
               (world (fun n => if Nat.eqb n 0
                                then ok_json (JObj ∅)
                                else ok_json auth_ok) (Some "tok0")) in
  res.2 = Ok auth_ok ∧ session_id res.1 = Some "tok1" ∧
  count (is_call "POST" "/axapi/v3/logoff") (trace res.1) = 1%nat ∧
  auth_calls res.1 = 1%nat.
Proof. vm_compute. by split_and!. Qed.

End Examples.

(** * Further properties of the module *)

(** ** What a request sends *)

Lemma appends_refl P st : appends P st st.
Proof. exists []. by rewrite app_nil_r. Qed.

Lemma appends_trans P a b c : appends P a b → appends P b c → appends P a c.
Proof.
  intros (t1 & E1 & F1) (t2 & E2 & F2). exists (t1 ++ t2)%list.
  split; [by rewrite E2, E1, app_assoc|by apply Forall_app].
Qed.

Lemma appends_emit P ev st : P ev → appends P st (emit ev st).
Proof. intros H. exists [ev]. split; [done|by constructor]. Qed.

Lemma appends_log P lvl msg : P (EvLog lvl msg) → respects (appends P) (log lvl msg).
Proof. intros H st. by apply appends_emit. Qed.

Lemma appends_sleep P : P (EvSleep 100) → respects (appends P) sleep.
Proof. intros H st. by apply appends_emit. Qed.

Lemma appends_alloc P d : respects (appends P) (alloc d).
Proof. intros st. exists []. split; [symmetry; apply app_nil_r|constructor]. Qed.

Lemma appends_requests_request P method url body hdrs :
  P (EvRequest method url body hdrs) →
  respects (appends P) (requests_request method url body hdrs).
Proof.
  intros H st. unfold requests_request.
  assert (appends P st (set_calls (S (calls st))
                          (emit (EvRequest method url body hdrs) st))) as Ha.
  { exists [EvRequest method url body hdrs]. split; [done|by constructor]. }
  by destruct (net st (calls st)).
Qed.

Lemma appends_retry_loop P c send n :
  P (EvSleep 100) →
  respects (appends P) send →
  ∀ i lc st, appends P st (retry_loop c send n i lc st).1.
Proof.
  intros Hp Hs. induction n as [|n IH]; intros i lc st; simpl.
  - apply appends_refl.
  - specialize (Hs st). destruct (send st) as [st1 [z|e]]; simpl in *; [done|].
    destruct e; try done.
    destruct (caught cls); [|done].
    destruct (retry_condition c eno text); [|done].
    eapply appends_trans; [exact Hs|].
    eapply appends_trans; [|apply IH]. by apply appends_emit.
Qed.

(** Steps of a computation that only logs. *)
Ltac appends_step :=
  match goal with
  | |- respects (appends ?P) (bind _ _) =>
      apply (respects_bind (appends P) (appends_trans P)); [|intros ?]
  | |- respects (appends ?P) (ret _) =>
      apply (respects_ret (appends P) (appends_refl P))
  | |- respects (appends ?P) (raise _) =>
      apply (respects_raise (appends P) (appends_refl P))
  | |- respects (appends ?P) (lift _) =>
      apply (respects_lift (appends P) (appends_refl P))
  | |- respects (appends ?P) (deref _) =>
      apply (respects_deref (appends P) (appends_refl P))
  | |- respects (appends _) (log _ _) => apply appends_log; exact I
  | |- respects (appends _) (alloc _) => apply appends_alloc
  | |- respects _ (match ?x with _ => _ end) => destruct x
  | |- respects _ (let _ := _ in _) => cbv zeta
  end.

Section SendFacts.
Context `{Ext : Externals}.

Lemma appends_handle_response method url body hdrs m api_url headers z :
  respects (appends (sent_as method url body hdrs))
           (handle_response m api_url headers z).
Proof.
  unfold handle_response, raise_axapi_ex, raise_axapi_auth_error.
  repeat appends_step.
Qed.

Lemma appends_request_finish method url body hdrs c m api_url headers lc :
  respects (appends (sent_as method url body hdrs))
           (request_finish c m api_url headers lc).
Proof.
  unfold request_finish. repeat appends_step.
  all: apply appends_handle_response.
Qed.

Lemma appends_request_prepare method url body hdrs c m api_url p headers kw :
  respects (appends (sent_as method url body hdrs))
           (request_prepare c m api_url p headers kw).
Proof. unfold request_prepare. repeat appends_step. Qed.

(** What [request] sends: every call of the transport it makes is the same
    call, with the payload and the headers its prelude computed. *)
Lemma request_sends c method api_url params headers kw st :
  ¬ exactly_one_file_arg kw →
  ∃ st0 payload hdrs,
    request_prepare c method api_url (default request_default_params params)
      headers kw st = (st0, Ok (payload, hdrs)) ∧
    appends (sent_as method (url_base c +:+ api_url) (send_body kw payload) hdrs)
      st (request c method api_url params headers kw st).1.
Proof.
  intros Hf.
  destruct (request_prepare_result c method api_url
              (default request_default_params params) headers kw st)
    as [_ Hr]. destruct (Hr Hf) as [[payload hdrs] Hph]. clear Hr.
  pose proof (appends_request_prepare method (url_base c +:+ api_url)
                (send_body kw payload) hdrs c method api_url
                (default request_default_params params) headers kw st) as Hp.
  unfold request. unfold bind at 1.
  destruct (request_prepare c method api_url
              (default request_default_params params) headers kw st)
    as [st0 r]. cbn [fst snd] in Hph, Hp. subst r.
  exists st0, payload, hdrs. split; [done|].
  eapply appends_trans; [exact Hp|]. cbn [fst snd].
  apply (respects_bind _ (appends_trans _)).
  - intros st1. apply appends_retry_loop; [exact I|].
    rewrite request_send_eq. by apply appends_requests_request.
  - intros lc. apply appends_request_finish.
Qed.


(** The headers the prelude of [request] computes. *)
Lemma request_prepare_headers c method api_url p headers kw st st0 payload hdrs :
  request_prepare c method api_url p headers kw st = (st0, Ok (payload, hdrs)) →
  hdrs =
  let base := match headers with
              | Some h => if truthy h then h ∪ HEADERS else HEADERS
              | None => HEADERS
              end in
  match file_name kw with
  | Some _ => delete "Content-Type" (delete "Content-type" base)
  | None => base
  end.
Proof.
  unfold request_prepare, bind, log, deref, alloc, ret, raise.
  destruct (axapi_args kw), (file_name kw), (file_content kw), headers as [h|];
    cbn; repeat case_match; intros; simplify_eq; done.
Qed.

(** The payload the prelude of [request] computes. *)
Lemma request_prepare_payload c method api_url p headers kw st st0 payload hdrs :
  request_prepare c method api_url p headers kw st = (st0, Ok (payload, hdrs)) →
  payload =
  let d := effective_params kw (heap st !!! p) in
  if truthy d then Some (json_dumps d) else None.
Proof.
  unfold request_prepare, effective_params, bind, log, deref, alloc, ret, raise.
  destruct (axapi_args kw), (file_name kw), (file_content kw);
    cbn; rewrite ?lookup_total_insert_eq;
    repeat case_match; intros; simplify_eq;
    rewrite ?lookup_total_insert_eq; done.
Qed.

Lemma truthy_false_empty {A} (m : gmap string A) : truthy m = false → m = ∅.
Proof.
  unfold truthy. intros H. apply map_size_empty_inv.
  destruct (size m); [done|discriminate].
Qed.

End SendFacts.

Section ClientExtras.
Context `{Ext : Externals}.

Lemma format_axapi_args_lookup (a : dict) k v :
  no_key_collision a →
  a !! k = Some v →
  format_axapi_args a !! str_replace "_" "-" k = Some v.
Proof.
  intros Hinj Hk. unfold format_axapi_args.
  change (map ?f ?l) with (f <$> l).
  apply elem_of_list_to_map_1.
  - rewrite <- list_fmap_compose.
    change (fst ∘ _) with (str_replace "_" "-" ∘ (fst : string * json → string)).
    rewrite list_fmap_compose.
    apply NoDup_fmap_2_strong; [|apply NoDup_fst_map_to_list].
    intros k1 k2 H1 H2. apply Hinj.
    + apply list_elem_of_fmap in H1 as ([? v1] & -> & H1).
      apply elem_of_map_to_list in H1. eauto.
    + apply list_elem_of_fmap in H2 as ([? v2] & -> & H2).
      apply elem_of_map_to_list in H2. eauto.
  - apply list_elem_of_fmap. exists (k, v). split; [done|].
    by apply elem_of_map_to_list.
Qed.

(** X4: every call of the transport that one [request] makes is the same call:
    the method, the URL [url_base + api_url], the headers, and as body the
    serialisation of the caller's mapping as it was at the call, or no body
    when that mapping is empty.  When [axapi_args] is given and no two of its
    keys collide after the replacement, the mapping serialised is the merge of
    the caller's mapping with [axapi_args] under the reformatted keys. *)
Theorem request_sends_params c method api_url params headers kw st :
  ¬ exactly_one_file_arg kw →
  (∀ a, axapi_args kw = Some a → no_key_collision a) →
  let d := effective_params kw
             (heap st !!! default request_default_params params) in
  let payload := if truthy d then Some (json_dumps d) else None in
  (∃ hdrs,
     appends (sent_as method (url_base c +:+ api_url) (send_body kw payload) hdrs)
       st (request c method api_url params headers kw st).1) ∧
  (axapi_args kw = None →
   d = heap st !!! default request_default_params params) ∧
  (∀ a, axapi_args kw = Some a →
        d = merge_dicts (heap st !!! default request_default_params params)
              (format_axapi_args a) ∧
        (∀ k v, a !! k = Some v →
                format_axapi_args a !! str_replace "_" "-" k = Some v) ∧
        (∀ k' v, format_axapi_args a !! k' = Some v →
                 ∃ k, a !! k = Some v ∧ k' = str_replace "_" "-" k)).
Proof.
  intros Hf Hcol. cbv zeta. split_and!.
  - destruct (request_sends c method api_url params headers kw st Hf)
      as (st0 & payload & hdrs & Hp & Ha).
    exists hdrs. apply request_prepare_payload in Hp. cbv zeta in Hp.
    by rewrite <- Hp.
  - intros Hn. unfold effective_params. by rewrite Hn.
  - intros a Ha. unfold effective_params. rewrite Ha. split_and!; [done| |].
    + intros k v Hk. apply format_axapi_args_lookup; [by apply Hcol|done].
    + intros k' v Hk'. unfold format_axapi_args in Hk'.
      apply elem_of_list_to_map_2 in Hk'.
      apply list_elem_of_In, in_map_iff in Hk' as ([k0 v0] & Heq & Hin).
      simpl in Heq. injection Heq as <- <-.
      apply list_elem_of_In, elem_of_map_to_list in Hin. by exists k0.
Qed.

(** X5: the headers of every call [request] makes.  The caller's headers
    override the defaults; the user agent and, without a file, the JSON
    content type are there unless the caller overrides them; a file upload
    carries no content type under either spelling, not even the caller's. *)
Theorem request_sent_headers c method api_url params headers kw st :
  ¬ exactly_one_file_arg kw →
  ∃ body hdrs,
    appends (sent_as method (url_base c +:+ api_url) body hdrs)
      st (request c method api_url params headers kw st).1 ∧
    (file_name kw ≠ None →
     hdrs !! "Content-type" = None ∧ hdrs !! "Content-Type" = None) ∧
    (∀ h k v, headers = Some h → h !! k = Some v →
              file_name kw = None ∨ (k ≠ "Content-type" ∧ k ≠ "Content-Type") →
              hdrs !! k = Some v) ∧
    ((∀ h, headers = Some h → h !! "User-Agent" = None) →
     hdrs !! "User-Agent" = Some ("ACOS-Client-AGENT-" +:+ acos_version)) ∧
    (file_name kw = None →
     (∀ h, headers = Some h → h !! "Content-type" = None) →
     hdrs !! "Content-type" = Some "application/json").
Proof.
  intros Hf.
  destruct (request_sends c method api_url params headers kw st Hf)
    as (st0 & payload & hdrs & Hp & Ha).
  exists (send_body kw payload), hdrs. split; [exact Ha|].
  apply request_prepare_headers in Hp. cbv zeta in Hp.
  set (base := match headers with
               | Some h => if truthy h then h ∪ HEADERS else HEADERS
               | None => HEADERS
               end) in Hp.
  assert (HEADERS !! "User-Agent"
          = Some ("ACOS-Client-AGENT-" +:+ acos_version)) as Hua.
  { unfold HEADERS. rewrite lookup_insert_ne by done.
    apply lookup_singleton_eq. }
  assert (HEADERS !! "Content-type" = Some "application/json") as Hct.
  { unfold HEADERS. apply lookup_insert_eq. }
  assert (∀ h k v, headers = Some h → h !! k = Some v → base !! k = Some v)
    as Hcaller.
  { intros h k v -> Hk. subst base. destruct (truthy h) eqn:Ht.
    - by apply lookup_union_Some_l.
    - apply truthy_false_empty in Ht. subst h. by rewrite lookup_empty in Hk. }
  assert (∀ k, (∀ h, headers = Some h → h !! k = None) →
               base !! k = HEADERS !! k) as Hdefault.
  { intros k Hk. subst base. destruct headers as [h|]; [|done].
    destruct (truthy h); [|done]. apply lookup_union_r. by apply Hk. }
  split_and!.
  - intros Hfn. destruct (file_name kw); [|done]. subst hdrs. split.
    + rewrite lookup_delete_ne by done. apply lookup_delete_eq.
    + apply lookup_delete_eq.
  - intros h k v Hh Hk Hside. subst hdrs.
    destruct (file_name kw) eqn:Hfn; [|by eapply Hcaller].
    destruct Hside as [?|[H1 H2]]; [done|].
    rewrite !lookup_delete_ne by done. by eapply Hcaller.
  - intros Hno. subst hdrs.
    destruct (file_name kw); rewrite ?lookup_delete_ne by done;
      by rewrite Hdefault.
  - intros Hfn Hno. subst hdrs. rewrite Hfn. by rewrite Hdefault.
Qed.

Lemma bind_run {A B} (m : M A) (k : A → M B) st :
  bind m k st = match m st with
                | (st1, Ok a) => k a st1
                | (st1, Raise e) => (st1, Raise e)
                end.
Proof. reflexivity. Qed.

Lemma retry_loop_counts c method url body hdrs n : ∀ i lc st,
  let st' := (retry_loop c (requests_request method url body hdrs) n i lc st).1 in
  ∃ a s, (a ≤ n)%nat ∧ (s ≤ a)%nat ∧ (a ≤ s + 1)%nat ∧
         calls st' = (calls st + a)%nat ∧
         attempts st' = (attempts st + a)%nat ∧
         sleeps st' = (sleeps st + s)%nat.
Proof.
  induction n as [|n IH]; intros i lc st.
  - exists 0%nat, 0%nat. simpl. lia.
  - cbn [retry_loop]. cbv zeta.
    pose proof (requests_request_step method url body hdrs st)
      as (C & A & HS & _).
    destruct (requests_request method url body hdrs st) as [st1 [z|e]];
      cbn [fst] in C, A, HS.
    { exists 1%nat, 0%nat. cbn [fst]. lia. }
    assert (∃ a s, (a ≤ S n)%nat ∧ (s ≤ a)%nat ∧ (a ≤ s + 1)%nat ∧
                   calls st1 = (calls st + a)%nat ∧
                   attempts st1 = (attempts st + a)%nat ∧
                   sleeps st1 = (sleeps st + s)%nat) as Hstop.
    { exists 1%nat, 0%nat. lia. }
    destruct e; try exact Hstop.
    destruct (caught cls); [|exact Hstop].
    destruct (retry_condition c eno text); [|exact Hstop].
    pose proof (sleep_step st1) as (C2 & A2 & S2).
    destruct (sleep st1) as [st2 u]. cbn [fst] in C2, A2, S2.
    match goal with
    | |- context [retry_loop _ _ n ?i ?lc ?st] =>
        destruct (IH i lc st) as (a & s & Ha & Hs1 & Hs2 & C3 & A3 & S3)
    end.
    cbv zeta in C3, A3, S3.
    exists (S a), (S s). split_and!; lia.
Qed.

(** X1: whatever the transport does, one [request] makes at most 1500 calls
    of it, sleeps only after a failed call, and never after the last one
    unless that was call 1500. *)
Theorem request_attempts_bounded c method api_url params headers kw st :
  let res := request c method api_url params headers kw st in
  ∃ a s, (a ≤ 1500)%nat ∧ (s ≤ a)%nat ∧ (a ≤ s + 1)%nat ∧
         calls res.1 = (calls st + a)%nat ∧
         attempts res.1 = (attempts st + a)%nat ∧
         sleeps res.1 = (sleeps st + s)%nat.
Proof.
  intros res. subst res. unfold request.
  pose proof (request_prepare_quiet c method api_url
                (default request_default_params params) headers kw st)
    as [_ (C & A & HS)].
  pose proof (still_entry_state c method api_url st) as (C0 & A0 & S0).
  rewrite bind_run.
  destruct (request_prepare c method api_url
              (default request_default_params params) headers kw st)
    as [st0 [ph|e]]; cbn [fst snd] in *.
  2:{ exists 0%nat, 0%nat. lia. }
  rewrite request_send_eq.
  match goal with
  | |- context [bind (retry_loop ?c ?s ?n ?i ?lc) ?f st0] =>
      pose proof (bind_still (retry_loop c s n i lc) f st0
                    (quiet_request_finish _ _ _ _)) as [_ (C3 & A3 & S3)];
      destruct (retry_loop_counts c method (url_base c +:+ api_url)
                  (send_body kw ph.1) ph.2 n i lc st0)
        as (a & s' & Ha & Hs1 & Hs2 & C4 & A4 & S4)
  end.
  cbv zeta in C4, A4, S4.
  exists a, s'. change retry_cap with 1500%nat in Ha.
  split_and!; [done|done|done|congruence..].
Qed.

(** The response that ends the loop reaches [handle_response] after [k]
    sleeps and [k + 1] calls. *)
Lemma request_completed_counts c method api_url params headers kw st es k z :
  ¬ exactly_one_file_arg kw →
  (k < retry_cap)%nat →
  (∀ j, (j < k)%nat →
        net st (calls st + j) = Raises (es j) ∧ Retryable c (es j)) →
  net st (calls st + k) = Returns z →
  let res := request c method api_url params headers kw st in
  calls res.1 = (calls st + S k)%nat ∧ sleeps res.1 = (sleeps st + k)%nat ∧
  ∃ st1, request c method api_url params headers kw st =
         handle_response method api_url headers z st1.
Proof.
  intros Hf Hk H Hz.
  destruct (request_at_attempt c method api_url params headers kw st es k
              Hf Hk H) as (st1 & body & hdrs & n & lc & N & C & _ & HS & _ & E).
  pose proof (requests_request_step method (url_base c +:+ api_url) body hdrs st1)
    as (C2 & _ & S2 & R).
  rewrite N, C, Hz in R.
  assert (∃ st3, calls st3 = (calls st + S k)%nat ∧
                 sleeps st3 = (sleeps st + k)%nat ∧
                 request c method api_url params headers kw st =
                 handle_response method api_url headers z st3)
    as (st3 & C3 & S3 & E3).
  { rewrite E. unfold bind at 1. cbn [retry_loop].
    destruct (requests_request method (url_base c +:+ api_url) body hdrs st1)
      as [st2 r]. cbn [fst snd] in C2, S2, R. subst r.
    unfold request_finish, bind, ret, log. cbn.
    eexists. split_and!; [| |reflexivity].
    - simpl. lia.
    - unfold sleeps in *. simpl. rewrite count_snoc. simpl. lia. }
  cbv zeta. rewrite E3.
  pose proof (quiet_handle_response method api_url headers z st3)
    as [_ (C4 & _ & S4)].
  split_and!; [congruence|congruence|by exists st3].
Qed.

(** X2: after [k] retried failures, a response (status other than 204)
    whose body decodes to a mapping is handled after exactly [k + 1] calls and
    [k] sleeps.  The mapping is returned as it is when it has no
    "authorizationschema" and its "response" entry is absent, or is a value
    in which the test ['status' in ...] is false, or is a mapping whose
    "status" is not "fail".  When that test raises (the "response" entry is
    null, a boolean or a number), the request raises its error. *)
Theorem request_returns_decoded_body c method api_url params headers kw st
    (es : nat → exc) k z (d : dict) :
  ¬ exactly_one_file_arg kw →
  (k < 1500)%nat →
  (∀ j, (j < k)%nat →
        net st (calls st + j) = Raises (es j) ∧ Retryable c (es j)) →
  net st (calls st + k) = Returns z →
  status_code z ≠ 204%Z →
  json_body z = Some (JObj d) →
  let res := request c method api_url params headers kw st in
  calls res.1 = (calls st + S k)%nat ∧
  sleeps res.1 = (sleeps st + k)%nat ∧
  (d !! "authorizationschema" = None →
   (d !! "response" = None ∨
    ∃ v, d !! "response" = Some v ∧
         (py_in "status" v = Ok false ∨
          ∃ inner : dict, v = JObj inner ∧
                          inner !! "status" ≠ Some (JStr "fail"))) →
   res.2 = Ok (JObj d)) ∧
  (∀ v e, d !! "response" = Some v → py_in "status" v = Raise e →
          res.2 = Raise e).
Proof.
  intros Hf Hk H Hz Hs Hb.
  destruct (request_completed_counts c method api_url params headers kw st
              es k z Hf Hk H Hz) as (C & S1 & st1 & E).
  cbv zeta. split_and!; [exact C|exact S1| |].
  - intros Ha Hr. rewrite E. unfold handle_response.
    apply Z.eqb_neq in Hs. rewrite Hs, Hb.
    unfold bind, log, lift, ret, raise_axapi_ex, raise_axapi_auth_error, raise.
    cbn [py_in py_getitem].
    rewrite Ha. rewrite (bool_decide_eq_false_2 (is_Some None)) by by intros [? ?].
    destruct Hr as [Hn|(v & Hv & [Hin|(inner & -> & Hst)])].
    + rewrite Hn. by rewrite (bool_decide_eq_false_2 (is_Some None))
        by by intros [? ?].
    + rewrite Hv. rewrite bool_decide_eq_true_2 by eauto. by rewrite Hin.
    + rewrite Hv. rewrite bool_decide_eq_true_2 by eauto.
      cbn [py_in py_getitem].
      destruct (inner !! "status") as [w|] eqn:Hw.
      * rewrite bool_decide_eq_true_2 by eauto.
        assert (py_eq_str w "fail" = false) as ->; [|done].
        destruct w; try done. simpl. apply String.eqb_neq. congruence.
      * by rewrite (bool_decide_eq_false_2 (is_Some None)) by by intros [? ?].
  - intros v e Hv Hin. rewrite E. unfold handle_response.
    apply Z.eqb_neq in Hs. rewrite Hs, Hb.
    unfold bind, log, lift, ret. cbn [py_in py_getitem].
    rewrite Hv. rewrite bool_decide_eq_true_2 by eauto. by rewrite Hin.
Qed.

(** X3: a decoded mapping that has the key "authorizationschema" and reports
    no failure raises the authentication error, with the method, the path and
    the caller's headers. *)
Theorem request_raises_auth_schema_error c method api_url params headers kw st
    (es : nat → exc) k z (d : dict) :
  ¬ exactly_one_file_arg kw →
  (k < 1500)%nat →
  (∀ j, (j < k)%nat →
        net st (calls st + j) = Raises (es j) ∧ Retryable c (es j)) →
  net st (calls st + k) = Returns z →
  status_code z ≠ 204%Z →
  json_body z = Some (JObj d) →
  is_Some (d !! "authorizationschema") →
  d !! "response" = None →
  (request c method api_url params headers kw st).2 =
  Raise (AuthSchemaError method api_url (JObj d) headers).
Proof.
  intros Hf Hk H Hz Hs Hb Ha Hr.
  destruct (request_completed_counts c method api_url params headers kw st
              es k z Hf Hk H Hz) as (_ & _ & st1 & E).
  rewrite E. unfold handle_response.
  apply Z.eqb_neq in Hs. rewrite Hs, Hb.
  unfold bind, log, lift, ret, raise_axapi_ex, raise_axapi_auth_error,
    raise, py_in, py_getitem.
  rewrite Hr. rewrite (bool_decide_eq_false_2 (is_Some None)) by by intros [? ?].
  by rewrite bool_decide_eq_true_2.
Qed.

End ClientExtras.

(** ** Substrings and replacement *)

Lemma str_prefix_app p s : str_prefix p (p +:+ s) = true.
Proof.
  induction p as [|a p IH]; simpl; [done|].
  by rewrite Ascii.eqb_refl, IH.
Qed.

Lemma str_prefix_inv p s : str_prefix p s = true → ∃ b, s = p +:+ b.
Proof.
  revert s. induction p as [|a p IH]; intros s H; simpl in *.
  - by exists s.
  - destruct s as [|c s]; [done|].
    apply andb_true_iff in H as [Ha Hp]. apply Ascii.eqb_eq in Ha as ->.
    destruct (IH s Hp) as [b ->]. by exists b.
Qed.

Lemma str_contains_unfold p s :
  str_contains p s =
  str_prefix p s || match s with
                    | EmptyString => false
                    | String _ s' => str_contains p s'
                    end.
Proof. by destruct s. Qed.

(** [str_contains] is Python's substring test. *)
Lemma str_contains_spec p s :
  str_contains p s = true ↔ ∃ a b, s = a +:+ p +:+ b.
Proof.
  split.
  - induction s as [|c s IH]; rewrite str_contains_unfold;
      intros [H|H]%orb_true_iff; try done.
    + destruct (str_prefix_inv _ _ H) as [b ->]. by exists "", b.
    + destruct (str_prefix_inv _ _ H) as [b Hb]. by exists "", b.
    + destruct (IH H) as (a & b & ->). by exists (String c a), b.
  - intros (a & b & ->). induction a as [|c a IH].
    + rewrite str_contains_unfold. change ("" +:+ p +:+ b) with (p +:+ b).
      by rewrite str_prefix_app.
    + change (String c a +:+ p +:+ b) with (String c (a +:+ p +:+ b)).
      rewrite str_contains_unfold. cbv iota. rewrite IH. apply orb_true_r.
Qed.

Lemma str_replace_removes a b s :
  a ≠ b → str_contains (String a "") (str_replace a b s) = false.
Proof.
  intros Hab. induction s as [|c s IH]; [done|].
  simpl str_replace. rewrite str_contains_unfold. rewrite IH.
  rewrite orb_false_r. simpl. rewrite andb_true_r.
  destruct (Ascii.eqb_spec c a) as [->|Hc].
  - by apply Ascii.eqb_neq.
  - apply Ascii.eqb_neq. congruence.
Qed.

Section InitFacts.
Context `{Ext : Externals}.

(** The markers [__init__] builds, by cases. *)
Lemma HttpClient_init_markers host port protocol retry_errno_list s :
  let c := HttpClient_init host port protocol retry_errno_list in
  retry_errnos c = default [] retry_errno_list ∧
  (s ∈ retry_err_strings c ↔
   s = "BadStatusLine" ∨
   ∃ n, n ∈ default [] retry_errno_list ∧
        (s = "[Errno " +:+ pretty n +:+ "]" ∨ errorcode !! n = Some s)).
Proof.
  cbv zeta. unfold HttpClient_init. cbn [retry_errnos retry_err_strings].
  assert ((([] ++ match retry_errno_list with Some l => l | None => [] end)%list)
          = default [] retry_errno_list) as -> by by destruct retry_errno_list.
  split; [done|].
  set (l := default [] retry_errno_list). 
  change (["BadStatusLine"] ++ ?x)%list with ("BadStatusLine" :: x).
  rewrite elem_of_cons, elem_of_app, list_elem_of_omap.
  rewrite list_elem_of_In, in_map_iff.
  split.
  - intros [->|[(n & <- & Hn%list_elem_of_In)|(n & Hn & He)]];
      [by left|right; exists n; auto..].
  - intros [->|(n & Hn & [->|He])]; [by left|right; left|right; right].
    + exists n. split; [done|by apply list_elem_of_In].
    + by exists n.
Qed.

(** [Retryable] for a client built by [__init__], in terms of the
    arguments of the constructor. *)
Lemma Retryable_init host port protocol l e :
  Retryable (HttpClient_init host port protocol l) e ↔
  configured_retry (default [] l) e.
Proof.
  unfold Retryable, configured_retry.
  destruct (HttpClient_init_markers host port protocol l "") as [He _].
  cbv zeta in He. rewrite He. split.
  - intros (cls & eno & text & -> & Hc & Hr). exists cls, eno, text.
    split; [done|]. split; [by destruct Hc as [-> | ->]|].
    destruct Hr as [Hn|(s & Hs & Ht)]; [by left|].
    apply (HttpClient_init_markers host port protocol l) in Hs
      as [->|(n & Hn & [->|Hname])].
    + right. by left.
    + right. right. exists n. split; [done|by left].
    + right. right. exists n. split; [done|]. right. by exists s.
  - intros (cls & eno & text & -> & Hc & Hr). exists cls, eno, text.
    split; [done|]. split; [destruct cls; [by left|by right|done]|].
    destruct Hr as [Hn|[Hb|(n & Hn & [Ht|(name & Hname & Ht)])]].
    + by left.
    + right. exists "BadStatusLine". split; [|done].
      apply (HttpClient_init_markers host port protocol l). by left.
    + right. exists ("[Errno " +:+ pretty n +:+ "]"). split; [|done].
      apply (HttpClient_init_markers host port protocol l). right.
      exists n. split; [done|by left].
    + right. exists name. split; [|done].
      apply (HttpClient_init_markers host port protocol l). right.
      exists n. split; [done|by right].
Qed.

(** What [request] does with the error of a failed attempt, by [Retryable]:
    sleep and go on, or raise at once. *)
Lemma request_retry_decision c method api_url params headers kw st
    (es : nat → exc) k e :
  ¬ exactly_one_file_arg kw →
  (k < 1500)%nat →
  (∀ j, (j < k)%nat →
        net st (calls st + j) = Raises (es j) ∧ Retryable c (es j)) →
  net st (calls st + k) = Raises e →
  let res := request c method api_url params headers kw st in
  (Retryable c e ↔ (sleeps st + S k ≤ sleeps res.1)%nat) ∧
  (Retryable c e → (S k < 1500)%nat →
   (calls st + S (S k) ≤ calls res.1)%nat) ∧
  (¬ Retryable c e →
   res.2 = Raise e ∧ calls res.1 = (calls st + S k)%nat ∧
   sleeps res.1 = (sleeps st + k)%nat).
Proof.
  intros Hf Hk H He res.
  assert (Retryable c e ∨ ¬ Retryable c e) as Hdec.
  { destruct (retryable c e) eqn:Hb.
    - left. by apply retryable_spec.
    - right. intros Hr%retryable_spec. congruence. }
  split_and!.
  - split.
    + intros Hr.
      by destruct (request_retried_at c method api_url params headers kw st
                     es k e Hf Hk H He Hr).
    + intros Hs. destruct Hdec as [Hr|Hn]; [done|].
      destruct (request_raised_at c method api_url params headers kw st
                  es k e Hf Hk H He Hn) as (_ & _ & _ & S1).
      fold res in S1. lia.
  - intros Hr.
    by destruct (request_retried_at c method api_url params headers kw st
                   es k e Hf Hk H He Hr).
  - intros Hn.
    destruct (request_raised_at c method api_url params headers kw st
                es k e Hf Hk H He Hn) as (R & C & _ & S1).
    by split_and!.
Qed.

(** X7: what a client built by [__init__] with the errnos [l] does when an
    attempt of a request fails.  The handler sleeps and the loop goes on (to
    the next attempt while the cap allows one) if and only if the error is a
    socket or connection error whose errno is in [l] or whose string form
    contains "BadStatusLine", "[Errno n]" for an [n] of [l], or the
    [errno.errorcode] name of such an [n]; every other error is raised at
    once. *)
Theorem init_decides_retry host port protocol l method api_url params headers
    kw st (es : nat → exc) k e :
  let c := HttpClient_init host port protocol l in
  ¬ exactly_one_file_arg kw →
  (k < 1500)%nat →
  (∀ j, (j < k)%nat →
        net st (calls st + j) = Raises (es j) ∧ Retryable c (es j)) →
  net st (calls st + k) = Raises e →
  let res := request c method api_url params headers kw st in
  (configured_retry (default [] l) e ↔ (sleeps st + S k ≤ sleeps res.1)%nat) ∧
  (configured_retry (default [] l) e → (S k < 1500)%nat →
   (calls st + S (S k) ≤ calls res.1)%nat) ∧
  (¬ configured_retry (default [] l) e →
   res.2 = Raise e ∧ calls res.1 = (calls st + S k)%nat ∧
   sleeps res.1 = (sleeps st + k)%nat).
Proof.
  intros c Hf Hk H He res.
  destruct (request_retry_decision c method api_url params headers kw st es k e
              Hf Hk H He) as (Hiff & Hnext & Hraise).
  fold res in Hiff, Hnext, Hraise.
  pose proof (Retryable_init host port protocol l e) as Hi. fold c in Hi.
  split_and!.
  - by rewrite <- Hi.
  - intros Hc. apply Hnext. by apply Hi.
  - intros Hn. apply Hraise. intros Hr. apply Hn. by apply Hi.
Qed.

(** [Retryable] for a client built without errnos. *)
Lemma Retryable_without_errnos host port protocol l e :
  l = None ∨ l = Some [] →
  (Retryable (HttpClient_init host port protocol l) e ↔
   bad_status_line_error e).
Proof.
  intros Hl.
  assert (retry_errnos (HttpClient_init host port protocol l) = [] ∧
          retry_err_strings (HttpClient_init host port protocol l)
          = ["BadStatusLine"]) as [He Hs].
  { by destruct Hl as [-> | ->]. }
  unfold Retryable, bad_status_line_error. rewrite He, Hs. split.
  - intros (cls & eno & text & -> & Hc & [(n & _ & Hn)|(s & Hin & Hc')]).
    + by apply elem_of_nil in Hn.
    + apply list_elem_of_singleton in Hin as ->.
      exists cls, eno, text. split_and!; [done| |done].
      by destruct Hc as [-> | ->].
  - intros (cls & eno & text & -> & Hc & Ht).
    exists cls, eno, text. split; [done|].
    split; [destruct cls; [by left|by right|done]|].
    right. exists "BadStatusLine". split; [apply list_elem_of_here|done].
Qed.

(** X8: a client built with [retry_errno_list] [None] or [[]] retries a
    failed attempt of a request (the handler sleeps and the loop goes on) if
    and only if the error is a socket or connection error whose string form
    contains "BadStatusLine"; every other error, whatever its errno, is raised
    at once. *)
Theorem no_errnos_retry_only_bad_status_line host port protocol l method
    api_url params headers kw st (es : nat → exc) k e :
  l = None ∨ l = Some [] →
  let c := HttpClient_init host port protocol l in
  ¬ exactly_one_file_arg kw →
  (k < 1500)%nat →
  (∀ j, (j < k)%nat →
        net st (calls st + j) = Raises (es j) ∧ Retryable c (es j)) →
  net st (calls st + k) = Raises e →
  let res := request c method api_url params headers kw st in
  (bad_status_line_error e ↔ (sleeps st + S k ≤ sleeps res.1)%nat) ∧
  (bad_status_line_error e → (S k < 1500)%nat →
   (calls st + S (S k) ≤ calls res.1)%nat) ∧
  (¬ bad_status_line_error e →
   res.2 = Raise e ∧ calls res.1 = (calls st + S k)%nat ∧
   sleeps res.1 = (sleeps st + k)%nat).
Proof.
  intros Hl c Hf Hk H He res.
  destruct (request_retry_decision c method api_url params headers kw st es k e
              Hf Hk H He) as (Hiff & Hnext & Hraise).
  fold res in Hiff, Hnext, Hraise.
  pose proof (Retryable_without_errnos host port protocol l e Hl) as Hi.
  fold c in Hi.
  split_and!.
  - by rewrite <- Hi.
  - intros Hc. apply Hnext. by apply Hi.
  - intros Hn. apply Hraise. intros Hr. apply Hn. by apply Hi.
Qed.

(** [Retryable] by a configured errno. *)
Lemma Retryable_configured_errno host port protocol l n cls eno text :
  n ∈ l →
  caught cls = true →
  eno = Some n ∨
  (∃ a b, text = a +:+ ("[Errno " +:+ pretty n +:+ "]") +:+ b) ∨
  (∃ name a b, errorcode !! n = Some name ∧ text = a +:+ name +:+ b) →
  Retryable (HttpClient_init host port protocol (Some l)) (EnvError cls eno text).
Proof.
  intros Hn Hc H.
  destruct (HttpClient_init_markers host port protocol (Some l) "x") as [He _].
  cbv zeta in He. cbn [default] in He.
  exists cls, eno, text. split; [done|].
  split; [destruct cls; [by left|by right|done]|].
  destruct H as [->|[(a & b & ->)|(name & a & b & Hname & ->)]].
  - left. exists n. by rewrite He.
  - right. exists ("[Errno " +:+ pretty n +:+ "]"). split.
    + apply (HttpClient_init_markers host port protocol (Some l)). right.
      exists n. split; [done|by left].
    + apply str_contains_spec. by exists a, b.
  - right. exists name. split.
    + apply (HttpClient_init_markers host port protocol (Some l)). right.
      exists n. split; [done|by right].
    + apply str_contains_spec. by exists a, b.
Qed.

(** X9: with errno [n] in [retry_errno_list], a failed attempt of a request
    is retried (the handler sleeps and the loop goes on to the next attempt
    while the cap allows one) when its error is a socket or connection error
    whose errno is [n], whose string form contains "[Errno n]" anywhere, or
    whose string form contains the name [errno.errorcode] gives to [n]. *)
Theorem configured_errno_is_retryable host port protocol l n cls eno text
    method api_url params headers kw st (es : nat → exc) k :
  n ∈ l →
  caught cls = true →
  eno = Some n ∨
  (∃ a b, text = a +:+ ("[Errno " +:+ pretty n +:+ "]") +:+ b) ∨
  (∃ name a b, errorcode !! n = Some name ∧ text = a +:+ name +:+ b) →
  let c := HttpClient_init host port protocol (Some l) in
  ¬ exactly_one_file_arg kw →
  (k < 1500)%nat →
  (∀ j, (j < k)%nat →
        net st (calls st + j) = Raises (es j) ∧ Retryable c (es j)) →
  net st (calls st + k) = Raises (EnvError cls eno text) →
  let res := request c method api_url params headers kw st in
  (sleeps st + S k ≤ sleeps res.1)%nat ∧
  ((S k < 1500)%nat → (calls st + S (S k) ≤ calls res.1)%nat).
Proof.
  intros Hn Hc Hcase c Hf Hk H He.
  pose proof (Retryable_configured_errno host port protocol l n cls eno text
                Hn Hc Hcase) as Hr. fold c in Hr.
  exact (request_retried_at c method api_url params headers kw st es k
           (EnvError cls eno text) Hf Hk H He Hr).
Qed.

(** X10: the keys of the reformatted [axapi_args] contain no underscore; each
    is a key of [axapi_args] with its underscores turned into hyphens. *)
Theorem format_axapi_args_keys (a : dict) k v :
  format_axapi_args a !! k = Some v →
  str_contains "_" k = false ∧
  ∃ k0, a !! k0 = Some v ∧ k = str_replace "_" "-" k0.
Proof.
  unfold format_axapi_args. intros H%elem_of_list_to_map_2.
  apply list_elem_of_In, in_map_iff in H as ([k0 v0] & Heq & Hin).
  simpl in Heq. injection Heq as <- <-.
  apply list_elem_of_In, elem_of_map_to_list in Hin.
  split; [by apply str_replace_removes|by exists k0].
Qed.

End InitFacts.

(** ** Session: close, authenticate, id *)

Section SessionExtras.
Context `{Ext : Externals}.

Lemma post_call_count c url params headers kw st m u :
  count (is_call m u) (trace (post c url params headers kw st).1) =
  (count (is_call m u) (trace st) +
   if String.eqb "POST" m && String.eqb url u then 1 else 0)%nat.
Proof.
  unfold post.
  pose proof (request_frame c "POST" url
                (Some (default post_default_params params)) headers kw st)
    as (_ & _ & _ & Hc).
  pose proof (frame_entry_state c "POST" url st) as (_ & _ & _ & Hc0).
  cbv zeta in Hc0. by rewrite Hc, Hc0.
Qed.

Lemma post_session_id c url params headers kw st :
  session_id (post c url params headers kw st).1 = session_id st.
Proof.
  unfold post.
  pose proof (request_frame c "POST" url
                (Some (default post_default_params params)) headers kw st)
    as (_ & Hs & _).
  pose proof (frame_entry_state c "POST" url st) as (_ & Hs0 & _).
  cbv zeta in Hs0. congruence.
Qed.

(** [close], by the token the session holds after the partition switch. *)
Lemma Session_close_run s st :
  let st1 := (partition_active st).1 in
  Session_close s st =
  match session_id st1 with
  | None => (st1, Ok py_None)
  | Some tok =>
      let lo := post (http s) "/axapi/v3/logoff" None
                  (Some {[ "Authorization" := "A10 " +:+ tok ]}) no_kwargs st1 in
      (set_session_id None lo.1, lo.2)
  end.
Proof.
  cbv zeta. unfold Session_close, bind, try_except_pass, get_session_id.
  destruct (partition_active st) as [st1 r]. cbn [fst].
  destruct (session_id st1) as [tok|]; [|done].
  unfold try_finally.
  by destruct (post (http s) "/axapi/v3/logoff" None _ no_kwargs st1).
Qed.

Lemma Session_close_session_id s st : session_id (Session_close s st).1 = None.
Proof.
  rewrite Session_close_run. cbv zeta.
  by destruct (session_id (partition_active st).1) eqn:E.
Qed.

Lemma authenticate_run s u p st :
  let sta := (alloc (credentials u p) st).1 in
  let ref := fresh (reserved ∪ dom (heap st)) in
  Session_authenticate s u p st =
  match session_id st with
  | None => authenticate_login s ref sta
  | Some _ =>
      match Session_close s sta with
      | (st1, Ok _) => authenticate_login s ref st1
      | (st1, Raise e) => (st1, Raise e)
      end
  end.
Proof.
  cbv zeta. unfold Session_authenticate, authenticate_login.
  rewrite bind_run. unfold alloc at 1. rewrite bind_run.
  unfold get_session_id at 1. cbn [session_id set_heap].
  destruct (session_id st) as [tok|].
  - rewrite bind_run. rewrite (bind_run (Session_close s)).
    unfold alloc. cbn [fst].
    by destruct (Session_close s _) as [st1 [r|e]].
  - rewrite bind_run. reflexivity.
Qed.

(** The login step on a session without a token: it ends with no token or
    with the token of the response it returns. *)
Lemma authenticate_login_token s ref st :
  session_id st = None →
  let res := authenticate_login s ref st in
  session_id res.1 = None ∨
  ∃ r tok, res.2 = Ok r ∧ token_of r tok ∧ session_id res.1 = Some tok.
Proof.
  intros Hs. cbv zeta. unfold authenticate_login. rewrite bind_run.
  pose proof (post_session_id (http s) "/axapi/v3/auth" (Some ref) None
                no_kwargs st) as Hp. rewrite Hs in Hp.
  destruct (post (http s) "/axapi/v3/auth" (Some ref) None no_kwargs st)
    as [st1 [r|e]]; cbn [fst] in Hp; [|by left].
  unfold bind, lift, put_session_id, ret.
  destruct (py_in "authresponse" r) as [[|]|] eqn:Hin; cbn; [|by left..].
  destruct (py_getitem r "authresponse") as [a|] eqn:Ha; cbn; [|by left].
  destruct (py_getitem a "signature") as [sig|] eqn:Hsig; cbn; [|by left].
  destruct (py_str sig) as [tok|] eqn:Htok; cbn; [|by left].
  right. exists r, tok. split_and!; [done| |done].
  destruct r; try done. unfold py_getitem in Ha.
  destruct (d !! "authresponse") as [a'|] eqn:Hd; [|done].
  injection Ha as ->. by exists d, a, sig.
Qed.

(** X11: [close] on a session that holds a token after the partition switch,
    whatever that switch did, makes one logoff request, sent with the header
    [Authorization: A10 <token>], and its outcome is that of the logoff;
    without a token it makes no request and returns [None]. *)
Theorem close_logs_off s st :
  let st1 := (partition_active st).1 in
  let res := Session_close s st in
  (session_id st1 = None → res = (st1, Ok py_None)) ∧
  (∀ tok, session_id st1 = Some tok →
     res.2 = (post (http s) "/axapi/v3/logoff" None
                (Some {[ "Authorization" := "A10 " +:+ tok ]}) no_kwargs st1).2 ∧
     count (is_call "POST" "/axapi/v3/logoff") (trace res.1) =
       S (count (is_call "POST" "/axapi/v3/logoff") (trace st1)) ∧
     ∃ body hdrs,
       appends (sent_as "POST" (url_base (http s) +:+ "/axapi/v3/logoff")
                  body hdrs) st1 res.1 ∧
       hdrs !! "Authorization" = Some ("A10 " +:+ tok)).
Proof.
  intros st1 res. subst res. rewrite Session_close_run. fold st1.
  clearbody st1. split.
  - by intros ->.
  - intros tok ->. cbv zeta. cbn [fst snd].
    split; [done|]. split.
    + cbn [trace set_session_id]. rewrite post_call_count. simpl. lia.
    + unfold post.
      destruct (request_sends (http s) "POST" "/axapi/v3/logoff"
                  (Some (default post_default_params None))
                  (Some {[ "Authorization" := "A10 " +:+ tok ]}) no_kwargs st1)
        as (st0 & payload & hdrs & Hp & Ha).
      { intros [[_ H]|[H _]]; by apply H. }
      exists (send_body no_kwargs payload), hdrs. split; [exact Ha|].
      apply request_prepare_headers in Hp. cbv zeta in Hp. cbn in Hp.
      subst hdrs. apply lookup_union_Some_l, lookup_singleton_eq.
Qed.

(** X12: whatever happens, [authenticate] leaves the session with no token or
    with the token of the response it returns, never with an older one. *)
Theorem authenticate_token_is_fresh s u p st :
  let res := Session_authenticate s u p st in
  session_id res.1 = None ∨
  ∃ r tok, res.2 = Ok r ∧ token_of r tok ∧ session_id res.1 = Some tok.
Proof.
  cbv zeta. rewrite authenticate_run. cbv zeta.
  destruct (session_id st) as [tok0|] eqn:Hs.
  - pose proof (Session_close_session_id s (alloc (credentials u p) st).1) as Hc.
    destruct (Session_close s (alloc (credentials u p) st).1) as [st1 [r|e]];
      cbn [fst] in Hc; [|by left].
    by apply authenticate_login_token.
  - by apply authenticate_login_token.
Qed.

(** X13: when [authenticate] is called on a session that holds a token and the
    logoff of [close] raises, the error reaches the caller, no auth request
    is made and the session is left without a token. *)
Theorem authenticate_stops_when_logoff_fails s u p st tok e :
  session_id st = Some tok →
  let cl := Session_close s (alloc (credentials u p) st).1 in
  cl.2 = Raise e →
  let res := Session_authenticate s u p st in
  res.2 = Raise e ∧ session_id res.1 = None ∧
  auth_calls res.1 = auth_calls cl.1.
Proof.
  intros Hs cl He. cbv zeta. rewrite authenticate_run. cbv zeta. rewrite Hs.
  pose proof (Session_close_session_id s (alloc (credentials u p) st).1) as Hc.
  fold cl in Hc |- *. destruct cl as [st1 [r|e']]; cbn [fst snd] in *; [done|].
  by injection He as ->.
Qed.

(** X14: when the logoff of [close] returns, [authenticate] on a session that
    holds a token goes on to exactly one auth request. *)
Theorem authenticate_logs_in_after_logoff s u p st tok r :
  session_id st = Some tok →
  let cl := Session_close s (alloc (credentials u p) st).1 in
  cl.2 = Ok r →
  auth_calls (Session_authenticate s u p st).1 = S (auth_calls cl.1).
Proof.
  intros Hs cl Hr. rewrite authenticate_run. cbv zeta. rewrite Hs.
  fold cl. destruct cl as [st1 [r'|e']]; cbn [fst snd] in *; [|done].
  unfold authenticate_login. rewrite bind_run.
  pose proof (post_auth_facts (http s)
                (Some (fresh (reserved ∪ dom (heap st)))) None no_kwargs st1)
    as [_ Hc]. cbv zeta in Hc.
  destruct (post (http s) "/axapi/v3/auth" _ None no_kwargs st1)
    as [st2 [r2|e2]]; cbn [fst] in *; [|done].
  unfold bind, lift, put_session_id, ret.
  destruct (py_in "authresponse" r2) as [[|]|]; try done.
  destruct (py_getitem r2 "authresponse") as [a|]; [|done].
  destruct (py_getitem a "signature") as [sig|]; [|done].
  by destruct (py_str sig).
Qed.

(** X15: on a session without a token, a response to the auth request that
    carries a signature makes [id] return the string of that signature and
    keep it as the token. *)
Theorem id_returns_signature s st sta ref st2 r tok :
  session_id st = None →
  alloc (credentials (username s) (password s)) st = (sta, Ok ref) →
  post (http s) "/axapi/v3/auth" (Some ref) None no_kwargs sta = (st2, Ok r) →
  token_of r tok →
  Session_id s st = (set_session_id (Some tok) st2, Ok (Some tok)).
Proof.
  intros Hs Ha Hp (d & a & sig & -> & Hd & Hsig & Htok).
  rewrite (id_unauthenticated s st Hs). cbv zeta.
  rewrite (authenticate_unauthenticated s _ _ st Hs). cbv zeta.
  unfold alloc in Ha. injection Ha as <- <-.
  unfold alloc. cbn [fst]. rewrite Hp. cbn [fst snd py_in py_getitem].
  rewrite Hd. rewrite bool_decide_eq_true_2 by eauto.
  by rewrite Hsig, Htok.
Qed.

(** X16: on a session without a token, an answer to the auth request that is
    no mapping with a signature raises: [None] (status 204) and other values
    that are not containers raise TypeError, an "authresponse" without
    "signature" raises KeyError; the session stays without a token. *)
Theorem authenticate_malformed_response s st sta ref st2 r :
  session_id st = None →
  alloc (credentials (username s) (password s)) st = (sta, Ok ref) →
  post (http s) "/axapi/v3/auth" (Some ref) None no_kwargs sta = (st2, Ok r) →
  let res := Session_id s st in
  session_id st2 = None ∧
  (r = py_None →
   res = (st2, Raise (TypeError "argument is not iterable"))) ∧
  (∀ (d inner : dict),
     r = JObj d → d !! "authresponse" = Some (JObj inner) →
     inner !! "signature" = None →
     res = (st2, Raise (KeyError "signature"))).
Proof.
  intros Hs Ha Hp res.
  assert (session_id st2 = None) as Hn.
  { pose proof (post_session_id (http s) "/axapi/v3/auth" (Some ref) None
                  no_kwargs sta) as H. rewrite Hp in H. cbn [fst] in H.
    unfold alloc in Ha. injection Ha as <- _. by rewrite H. }
  assert (res = match Session_authenticate s (username s) (password s) st with
                | (st', Ok _) => (st', Ok (session_id st'))
                | (st', Raise e) => (st', Raise e)
                end) as Hres.
  { subst res. rewrite (id_unauthenticated s st Hs). cbv zeta.
    by destruct (Session_authenticate s (username s) (password s) st)
      as [? [?|?]]. }
  rewrite Hres. rewrite (authenticate_unauthenticated s _ _ st Hs). cbv zeta.
  unfold alloc in Ha. injection Ha as <- <-.
  unfold alloc. cbn [fst]. rewrite Hp. cbn [fst snd].
  split_and!; [done| |].
  - by intros ->.
  - intros d inner -> Hd Hi. cbn [py_in py_getitem].
    rewrite Hd. rewrite bool_decide_eq_true_2 by eauto.
    cbn [py_getitem]. by rewrite Hi.
Qed.

End SessionExtras.

(** ** The wrappers, and the further properties at concrete inputs *)

Section WrapperFacts.
Context `{Ext : Externals}.

(** X6: [get], [post], [put] and [delete] call the transport with the method
    GET, POST, PUT and DELETE and with the URL [url_base + api_url], and with
    nothing else. *)
Theorem wrappers_send_their_method c api_url params headers kw st :
  ¬ exactly_one_file_arg kw →
  let url := url_base c +:+ api_url in
  (∃ body hdrs, appends (sent_as "GET" url body hdrs) st
                  (get c api_url params headers kw st).1) ∧
  (∃ body hdrs, appends (sent_as "POST" url body hdrs) st
                  (post c api_url params headers kw st).1) ∧
  (∃ body hdrs, appends (sent_as "PUT" url body hdrs) st
                  (put c api_url params headers kw st).1) ∧
  (∃ body hdrs, appends (sent_as "DELETE" url body hdrs) st
                  (delete_ c api_url params headers kw st).1).
Proof.
  intros Hf url. unfold get, post, put, delete_.
  split_and!;
    match goal with
    | |- context [request c ?m api_url ?p headers kw st] =>
        destruct (request_sends c m api_url p headers kw st Hf)
          as (st0 & payload & hdrs & _ & Ha);
        by exists (send_body kw payload), hdrs
    end.
Qed.

End WrapperFacts.

Module ExtraWitnesses.
Import Demo.

Lemma wrappers_send_their_method_witness :
  ∃ body hdrs,
    appends (sent_as "DELETE" "https://10.0.0.1:443/axapi/v3/slb/server/s1"
               body hdrs) st_ok
      (@delete_ ext client "/axapi/v3/slb/server/s1" None None no_kwargs st_ok).1.
Proof.
  apply (@wrappers_send_their_method ext client "/axapi/v3/slb/server/s1"
           None None no_kwargs st_ok).
  exact DemoFacts.no_file_args.
Defined.

Lemma init_decides_retry_witness :
  let res := @request ext client "GET" "/axapi/v3/slb" None None no_kwargs
               (world (fun _ => Raises refused) None) in
  res.2 = Raise refused ∧ calls res.1 = 1%nat ∧ sleeps res.1 = 0%nat.
Proof.
  apply (@init_decides_retry ext "10.0.0.1" None "https" (Some [104%Z])
           "GET" "/axapi/v3/slb" None None no_kwargs
           (world (fun _ => Raises refused) None) (fun _ => reset) 0%nat
           refused).
  - exact DemoFacts.no_file_args.
  - lia.
  - intros j Hj. lia.
  - reflexivity.
  - intros H.
    apply (@Retryable_init ext "10.0.0.1" None "https" (Some [104%Z])) in H.
    apply retryable_spec in H. vm_compute in H. discriminate.
Defined.

Lemma no_errnos_retry_only_bad_status_line_witness :
  let res := @request ext client_no_errnos "GET" "/axapi/v3/slb" None None
               no_kwargs (world (fails_once reset) None) in
  res.2 = Raise reset ∧ calls res.1 = 1%nat ∧ sleeps res.1 = 0%nat.
Proof.
  apply (@no_errnos_retry_only_bad_status_line ext "10.0.0.1" None "https"
           None "GET" "/axapi/v3/slb" None None no_kwargs
           (world (fails_once reset) None) (fun _ => reset) 0%nat reset).
  - by left.
  - exact DemoFacts.no_file_args.
  - lia.
  - intros j Hj. lia.
  - reflexivity.
  - intros (cls & eno & text & [= <- <- <-] & _ & Ht).
    vm_compute in Ht. discriminate.
Defined.

Lemma configured_errno_is_retryable_witness :
  let res := @request ext client "GET" "/axapi/v3/slb" None None no_kwargs
               (world (fails_once econnreset_text) None) in
  (1 ≤ sleeps res.1)%nat ∧ (2 ≤ calls res.1)%nat.
Proof.
  destruct (@configured_errno_is_retryable ext "10.0.0.1" None "https"
              [104%Z] 104%Z SocketError None "error: ECONNRESET"
              "GET" "/axapi/v3/slb" None None no_kwargs
              (world (fails_once econnreset_text) None) (fun _ => reset) 0%nat)
    as [Hs Hc].
  - apply list_elem_of_here.
  - reflexivity.
  - right. right. exists "ECONNRESET", "error: ", "". split; reflexivity.
  - exact DemoFacts.no_file_args.
  - lia.
  - intros j Hj. lia.
  - reflexivity.
  - split; [exact Hs|apply Hc; lia].
Defined.

Lemma format_axapi_args_keys_witness :
  str_contains "_" "ip-address" = false ∧
  ∃ k0, ({[ "ip_address" := JStr "10.1.1.1" ]} : dict) !! k0
        = Some (JStr "10.1.1.1") ∧
        "ip-address" = str_replace "_" "-" k0.
Proof.
  apply (format_axapi_args_keys {[ "ip_address" := JStr "10.1.1.1" ]}
           "ip-address" (JStr "10.1.1.1")).
  vm_compute. reflexivity.
Defined.

Lemma request_sends_params_witness :
  ∃ hdrs,
    appends (sent_as "POST" "https://10.0.0.1:443/axapi/v3/slb/virtual-server"
               (Data (Some "name")) hdrs) st_params
      (@request ext client "POST" "/axapi/v3/slb/virtual-server"
         (Some 10%positive) None no_kwargs st_params).1.
Proof.
  apply (@request_sends_params ext client "POST" "/axapi/v3/slb/virtual-server"
           (Some 10%positive) None no_kwargs st_params).
  - exact DemoFacts.no_file_args.
  - intros a Ha. discriminate.
Defined.

Lemma upload_consistent : ¬ exactly_one_file_arg upload.
Proof. intros [[H _]|[_ H]]; discriminate. Qed.

Lemma request_sent_headers_witness :
  ∃ body hdrs,
    appends (sent_as "POST" "https://10.0.0.1:443/axapi/v3/file/startup"
               body hdrs) st_ok
      (@request ext client "POST" "/axapi/v3/file/startup" None
         (Some {[ "Content-type" := "text/plain" ]}) upload st_ok).1 ∧
    hdrs !! "Content-type" = None ∧ hdrs !! "Content-Type" = None ∧
    hdrs !! "User-Agent" = Some "ACOS-Client-AGENT-1.4.6".
Proof.
  destruct (@request_sent_headers ext client "POST" "/axapi/v3/file/startup"
              None (Some {[ "Content-type" := "text/plain" ]}) upload st_ok
              upload_consistent)
    as (body & hdrs & Ha & Hfile & _ & Hua & _).
  exists body, hdrs. split; [exact Ha|].
  destruct Hfile as [H1 H2]; [discriminate|].
  split_and!; [exact H1|exact H2|].
  apply Hua. intros h [= <-]. reflexivity.
Defined.

Lemma request_returns_decoded_body_witness :
  let st := world (after_two_resets (ok_json status_ok)) None in
  let res := @request ext client "GET" "/axapi/v3/slb" None None no_kwargs st in
  calls res.1 = 3%nat ∧ sleeps res.1 = 2%nat ∧ res.2 = Ok status_ok.
Proof.
  destruct (@request_returns_decoded_body ext client "GET" "/axapi/v3/slb" None
              None no_kwargs (world (after_two_resets (ok_json status_ok)) None)
              (fun _ => reset) 2%nat
              {| status_code := 200; json_body := Some status_ok |}
              {[ "response" := JObj {[ "status" := JStr "OK" ]} ]})
    as (Hc & Hs & Hret & _).
  - exact DemoFacts.no_file_args.
  - lia.
  - apply DemoFacts.two_resets.
  - reflexivity.
  - discriminate.
  - reflexivity.
  - split_and!; [exact Hc|exact Hs|].
    apply Hret; [reflexivity|].
    right. exists (JObj {[ "status" := JStr "OK" ]}). split; [reflexivity|].
    right. exists {[ "status" := JStr "OK" ]}. split; [reflexivity|].
    vm_compute. discriminate.
Defined.

Lemma request_raises_auth_schema_error_witness :
  (@request ext client "GET" "/axapi/v3/slb" None None no_kwargs
     (world (fun _ => ok_json schema_body) None)).2 =
  Raise (AuthSchemaError "GET" "/axapi/v3/slb" schema_body None).
Proof.
  apply (@request_raises_auth_schema_error ext client "GET" "/axapi/v3/slb"
           None None no_kwargs (world (fun _ => ok_json schema_body) None)
           (fun _ => reset) 0%nat
           {| status_code := 200; json_body := Some schema_body |}).
  - exact DemoFacts.no_file_args.
  - lia.
  - intros j Hj. lia.
  - reflexivity.
  - discriminate.
  - reflexivity.
  - vm_compute. eauto.
  - reflexivity.
Defined.

Lemma close_logs_off_witness :
  let st := world (fun _ => Raises refused) (Some "tok1") in
  let res := @Session_close ext_partition_fails session st in
  count (is_call "POST" "/axapi/v3/logoff") (trace res.1) = 1%nat ∧
  ∃ body hdrs,
    appends (sent_as "POST" "https://10.0.0.1:443/axapi/v3/logoff" body hdrs)
      st res.1 ∧
    hdrs !! "Authorization" = Some "A10 tok1".
Proof.
  destruct (@close_logs_off ext_partition_fails session
              (world (fun _ => Raises refused) (Some "tok1"))) as [_ H].
  destruct (H "tok1" eq_refl) as (_ & Hc & Hs).
  split; [exact Hc|exact Hs].
Defined.

Lemma authenticate_stops_when_logoff_fails_witness :
  let st := world (fun _ => Raises refused) (Some "tok0") in
  let res := @Session_authenticate ext session "admin" "a10" st in
  res.2 = Raise refused ∧ session_id res.1 = None ∧ auth_calls res.1 = 0%nat.
Proof.
  apply (@authenticate_stops_when_logoff_fails ext session "admin" "a10"
           (world (fun _ => Raises refused) (Some "tok0")) "tok0" refused).
  - reflexivity.
  - vm_compute. reflexivity.
Defined.

Lemma authenticate_logs_in_after_logoff_witness :
  let st := world (fun _ => ok_json auth_ok) (Some "tok0") in
  auth_calls (@Session_authenticate ext session "admin" "a10" st).1 = 1%nat.
Proof.
  apply (@authenticate_logs_in_after_logoff ext session "admin" "a10"
           (world (fun _ => ok_json auth_ok) (Some "tok0")) "tok0" auth_ok).
  - reflexivity.
  - vm_compute. reflexivity.
Defined.

Lemma id_returns_signature_witness :
  (@Session_id ext session st_ok).2 = Ok (Some "tok1") ∧
  session_id (@Session_id ext session st_ok).1 = Some "tok1".
Proof.
  pose (a := alloc (credentials "admin" "a10") st_ok).
  pose (ref := fresh (reserved ∪ dom (heap st_ok))).
  pose (p := @post ext client "/axapi/v3/auth" (Some ref) None no_kwargs a.1).
  assert (p = (p.1, Ok auth_ok)) as Hp by (vm_compute; reflexivity).
  rewrite (@id_returns_signature ext session st_ok a.1 ref p.1 auth_ok "tok1"
             eq_refl eq_refl Hp).
  - split; reflexivity.
  - exists {[ "authresponse" := JObj {[ "signature" := JStr "tok1" ]} ]},
      (JObj {[ "signature" := JStr "tok1" ]}), (JStr "tok1").
    split_and!; reflexivity.
Defined.

Lemma authenticate_malformed_response_witness :
  let st := world (fun _ => Returns {| status_code := 204; json_body := None |})
              None in
  (@Session_id ext session st).2 = Raise (TypeError "argument is not iterable") ∧
  session_id (@Session_id ext session st).1 = None.
Proof.
  pose (st := world (fun _ => Returns {| status_code := 204;
                                         json_body := None |}) None).
  pose (a := alloc (credentials "admin" "a10") st).
  pose (ref := fresh (reserved ∪ dom (heap st))).
  pose (p := @post ext client "/axapi/v3/auth" (Some ref) None no_kwargs a.1).
  assert (p = (p.1, Ok py_None)) as Hp by (vm_compute; reflexivity).
  destruct (@authenticate_malformed_response ext session st a.1 ref p.1 py_None
              eq_refl eq_refl Hp) as (Hn & Hnone & _).
  cbv zeta. fold st. rewrite (Hnone eq_refl). split; [reflexivity|exact Hn].
Defined.

End ExtraWitnesses.
